(** * Rcpp: sugar [operator-] and the attributes export generators

    A shallow embedding of
    - the sugar expression templates of [Rcpp/sugar/operators/minus.h]
      (module [Sugar]), and
    - the export generators of [AttributesGen.cpp] (module [Attributes]):
      the generator base class with its commit-if-changed discipline, the
      four concrete generators and the translation of C++ default
      arguments into R default arguments.

    Strings are [string], files live in a finite map from paths to their
    content, C++ exceptions are an error result, output streams are the
    text written so far. *)

From Stdlib Require Import ZArith Ascii String List Bool Lia.
From stdpp Require Import base option gmap strings list.

Open Scope Z_scope.

(* ===================================================================== *)
(** * Sugar: elementwise subtraction (minus.h)                            *)
(* ===================================================================== *)

Module Sugar.

(** [traits::storage_type<RTYPE>::type] with [traits::is_na<RTYPE>] and
    the primitive subtraction of that storage type. *)
Class Storage (STORAGE : Type) := {
  is_na : STORAGE -> bool;
  minus : STORAGE -> STORAGE -> STORAGE
}.

(** What a sugar expression sees of an operand [VectorBase<RTYPE,NA,T>]
    through [get_ref()]: [operator[](int)] and [size()]. *)
Class VectorBase (STORAGE T : Type) := {
  at_ : T -> Z -> STORAGE;
  size : T -> Z
}.

Section Templates.
Context {STORAGE : Type} `{Storage STORAGE}.

(** ** [Minus_Vector_Vector<RTYPE,LHS_NA,LHS_T,RHS_NA,RHS_T>] *)
Record Minus_Vector_Vector (LHS_NA RHS_NA : bool) (LHS_T RHS_T : Type) := {
  vv_lhs : LHS_T;
  vv_rhs : RHS_T
}.
Arguments vv_lhs {LHS_NA RHS_NA LHS_T RHS_T} _.
Arguments vv_rhs {LHS_NA RHS_NA LHS_T RHS_T} _.

Section VectorVector.
Context {LHS_T RHS_T : Type}
        `{VectorBase STORAGE LHS_T} `{VectorBase STORAGE RHS_T}.

(** The primary template and its three partial specialisations,
    selected by the two NA flags as the compiler selects them. *)
Definition Minus_Vector_Vector_at {LHS_NA RHS_NA : bool}
    (e : Minus_Vector_Vector LHS_NA RHS_NA LHS_T RHS_T) (i : Z) : STORAGE :=
  match LHS_NA, RHS_NA with
  | true, true =>
      let x := at_ (vv_lhs e) i in
      if is_na x then x
      else
        let y := at_ (vv_rhs e) i in
        if is_na y then y else minus x y
  | false, true =>
      let y := at_ (vv_rhs e) i in
      if is_na y then y
      else minus (at_ (vv_lhs e) i) y
  | true, false =>
      let x := at_ (vv_lhs e) i in
      if is_na x then x
      else minus x (at_ (vv_rhs e) i)
  | false, false =>
      minus (at_ (vv_lhs e) i) (at_ (vv_rhs e) i)
  end.

Definition Minus_Vector_Vector_size {LHS_NA RHS_NA : bool}
    (e : Minus_Vector_Vector LHS_NA RHS_NA LHS_T RHS_T) : Z :=
  size (vv_lhs e).

#[export] Instance Minus_Vector_Vector_VectorBase {LHS_NA RHS_NA : bool} :
  VectorBase STORAGE (Minus_Vector_Vector LHS_NA RHS_NA LHS_T RHS_T) :=
  {| at_ := Minus_Vector_Vector_at; size := Minus_Vector_Vector_size |}.
End VectorVector.

(** ** [Minus_Primitive_Vector<RTYPE,NA,T>]

    Both the primary template and the [NA = false] specialisation have
    the same [operator[]] and [size()]; the constructor computes
    [lhs_na] from the scalar. *)
Record Minus_Primitive_Vector (NA : bool) (T : Type) := {
  pv_lhs : STORAGE;
  pv_rhs : T;
  pv_lhs_na : bool
}.
Arguments pv_lhs {NA T} _.
Arguments pv_rhs {NA T} _.
Arguments pv_lhs_na {NA T} _.

Section PrimitiveVector.
Context {T : Type} `{VectorBase STORAGE T}.

Definition Minus_Primitive_Vector_new (NA : bool) (lhs_ : STORAGE) (rhs_ : T)
  : Minus_Primitive_Vector NA T :=
  {| pv_lhs := lhs_; pv_rhs := rhs_; pv_lhs_na := is_na lhs_ |}.

Definition Minus_Primitive_Vector_at {NA : bool}
    (e : Minus_Primitive_Vector NA T) (i : Z) : STORAGE :=
  if pv_lhs_na e then pv_lhs e
  else minus (pv_lhs e) (at_ (pv_rhs e) i).

Definition Minus_Primitive_Vector_size {NA : bool}
    (e : Minus_Primitive_Vector NA T) : Z :=
  size (pv_rhs e).

#[export] Instance Minus_Primitive_Vector_VectorBase {NA : bool} :
  VectorBase STORAGE (Minus_Primitive_Vector NA T) :=
  {| at_ := Minus_Primitive_Vector_at; size := Minus_Primitive_Vector_size |}.
End PrimitiveVector.

(** ** [Minus_Vector_Primitive<RTYPE,NA,T>], the primary template

    The [NA = false] specialisation indexes the scalar and subtracts from
    the vector as a whole; it cannot be instantiated and has no model
    here. *)
Record Minus_Vector_Primitive (T : Type) := {
  vp_lhs : T;
  vp_rhs : STORAGE;
  vp_rhs_na : bool
}.
Arguments vp_lhs {T} _.
Arguments vp_rhs {T} _.
Arguments vp_rhs_na {T} _.

Section VectorPrimitive.
Context {T : Type} `{VectorBase STORAGE T}.

Definition Minus_Vector_Primitive_new (lhs_ : T) (rhs_ : STORAGE)
  : Minus_Vector_Primitive T :=
  {| vp_lhs := lhs_; vp_rhs := rhs_; vp_rhs_na := is_na rhs_ |}.

Definition Minus_Vector_Primitive_at (e : Minus_Vector_Primitive T) (i : Z) : STORAGE :=
  if vp_rhs_na e then vp_rhs e
  else
    let x := at_ (vp_lhs e) i in
    if is_na x then x else minus x (vp_rhs e).

Definition Minus_Vector_Primitive_size (e : Minus_Vector_Primitive T) : Z :=
  size (vp_lhs e).

#[export] Instance Minus_Vector_Primitive_VectorBase :
  VectorBase STORAGE (Minus_Vector_Primitive T) :=
  {| at_ := Minus_Vector_Primitive_at; size := Minus_Vector_Primitive_size |}.
End VectorPrimitive.

(** ** The three overloads of [operator-]

    The result of each overload derives from [VectorBase<RTYPE,true,...>]
    unless both operands of a vector difference are NA-free; the flags of
    the operands are those of their own types. *)
Definition operator_minus_Vector_Primitive {T : Type} `{VectorBase STORAGE T}
    (lhs : T) (rhs : STORAGE) : Minus_Vector_Primitive T :=
  Minus_Vector_Primitive_new lhs rhs.

Definition operator_minus_Primitive_Vector {T : Type} `{VectorBase STORAGE T}
    (NA : bool) (lhs : STORAGE) (rhs : T) : Minus_Primitive_Vector NA T :=
  Minus_Primitive_Vector_new NA lhs rhs.

Definition operator_minus_Vector_Vector {LHS_T RHS_T : Type}
    (LHS_NA RHS_NA : bool) (lhs : LHS_T) (rhs : RHS_T)
  : Minus_Vector_Vector LHS_NA RHS_NA LHS_T RHS_T :=
  {| vv_lhs := lhs; vv_rhs := rhs |}.
End Templates.

Arguments vv_lhs {LHS_NA RHS_NA LHS_T RHS_T} _.
Arguments vv_rhs {LHS_NA RHS_NA LHS_T RHS_T} _.
Arguments Build_Minus_Vector_Vector LHS_NA RHS_NA {LHS_T RHS_T} _ _.
Arguments pv_lhs {STORAGE NA T} _.
Arguments pv_rhs {STORAGE NA T} _.
Arguments pv_lhs_na {STORAGE NA T} _.
Arguments vp_lhs {STORAGE T} _.
Arguments vp_rhs {STORAGE T} _.
Arguments vp_rhs_na {STORAGE T} _.

(** ** A concrete storage type: INTSXP

    [int] is a 32-bit two's complement integer, [NA_INTEGER] is its
    least value; subtraction wraps around. *)
Definition wrap32 (z : Z) : Z := (z + 2 ^ 31) mod 2 ^ 32 - 2 ^ 31.
Definition NA_INTEGER : Z := - 2 ^ 31.

#[export] Instance INTSXP_Storage : Storage Z :=
  {| is_na := fun x => x =? NA_INTEGER; minus := fun x y => wrap32 (x - y) |}.

(** An integer vector backed by a list of elements. *)
Record IntegerVector := { iv_data : list Z }.

#[export] Instance IntegerVector_VectorBase : VectorBase Z IntegerVector :=
  {| at_ := fun v i => nth (Z.to_nat i) (iv_data v) 0;
     size := fun v => Z.of_nat (length (iv_data v)) |}.

End Sugar.


(* ===================================================================== *)
(** * Text: the [std::string] and [std::stringstream] operations used     *)
(* ===================================================================== *)

Module Text.
Open Scope string_scope.

(** [std::endl] and the double quote character. *)
Definition nl : string := String "010"%char EmptyString.
Definition dq : string := String "034"%char EmptyString.

(** [s.empty()] *)
Definition empty (s : string) : bool :=
  match s with EmptyString => true | String _ _ => false end.

(** [s.find(pattern)]: position of the first occurrence, [None] for
    [std::string::npos]. *)
Definition find (s pattern : string) : option nat := String.index 0 pattern s.

(** [s.find(c) != std::string::npos] for a character [c]. *)
Fixpoint contains_char (c : ascii) (s : string) : bool :=
  match s with
  | EmptyString => false
  | String d s' => if Ascii.eqb d c then true else contains_char c s'
  end.

(** [s.substr(pos)] and [s.substr(pos, len)], for [pos <= s.size()]. *)
Definition substr_from (s : string) (pos : nat) : string :=
  String.substring pos (String.length s - pos) s.
Definition substr (s : string) (pos len : nat) : string :=
  String.substring pos len s.

(** [std::string(n, ' ')] *)
Fixpoint spaces (n : nat) : string :=
  match n with O => EmptyString | S n' => String " "%char (spaces n') end.

(** [std::isspace] in the classic locale: space, \t, \n, \v, \f, \r. *)
Definition isspace (c : ascii) : bool :=
  let n := nat_of_ascii c in
  (Nat.eqb n 32 || (Nat.leb 9 n && Nat.leb n 13))%bool.

(** The sentry of a formatted input function: skip leading blanks. *)
Fixpoint skipws (s : string) : string :=
  match s with
  | String c s' => if isspace c then skipws s' else s
  | EmptyString => EmptyString
  end.

(** Characters up to the next blank, and what is left after them. *)
Fixpoint read_word (s : string) : string * string :=
  match s with
  | String c s' =>
      if isspace c then (EmptyString, s)
      else let '(w, rest) := read_word s' in (String c w, rest)
  | EmptyString => (EmptyString, EmptyString)
  end.

(** [stream >> suffix] for a [std::string suffix] that starts out empty,
    on a stream whose unread characters are [unread]: the word read and
    whether [eofbit] is set afterwards.  When only blanks are left the
    sentry runs into the end of the stream: nothing is stored and
    [eofbit] is set.  Otherwise the word ends at the next blank, or at
    the end of the stream, which sets [eofbit]. *)
Definition extract_word (unread : string) : string * bool :=
  match skipws unread with
  | EmptyString => (EmptyString, true)
  | String c s' =>
      let '(w, rest) := read_word (String c s') in (w, empty rest)
  end.

(** A reference model of [stream >> num] for a [double num] in the
    classic locale: blanks, an optional sign, decimal digits with at
    most one point, an optional exponent.  The result is the unread rest
    of the text, [None] when [failbit] is set.  The range of [double] is
    not part of this model; the generators below take the extraction as
    a parameter ([extractDouble]) and this scanner is one instance. *)
Definition isdigit (c : ascii) : bool :=
  let n := nat_of_ascii c in (Nat.leb 48 n && Nat.leb n 57)%bool.

Fixpoint scan_digits (s : string) : nat * string :=
  match s with
  | String c s' =>
      if isdigit c then let '(n, rest) := scan_digits s' in (S n, rest)
      else (O, s)
  | EmptyString => (O, EmptyString)
  end.

Definition scan_sign (s : string) : string :=
  match s with
  | String c s' => if (Ascii.eqb c "+" || Ascii.eqb c "-")%bool then s' else s
  | EmptyString => EmptyString
  end.

Definition scan_point (s : string) : string :=
  match s with
  | String c s' => if Ascii.eqb c "." then s' else s
  | EmptyString => EmptyString
  end.

Definition scan_exponent (s : string) : option string :=
  match s with
  | String c s' =>
      if (Ascii.eqb c "e" || Ascii.eqb c "E")%bool then
        let '(n, rest) := scan_digits (scan_sign s') in
        if Nat.eqb n 0 then None else Some rest
      else Some s
  | EmptyString => Some EmptyString
  end.

Definition scan_double (text : string) : option string :=
  let '(n1, s1) := scan_digits (scan_sign (skipws text)) in
  let '(n2, s2) := scan_digits (scan_point s1) in
  if Nat.eqb (n1 + n2) 0 then None else scan_exponent s2.

End Text.


(* ===================================================================== *)
(** * Attributes: the export generators (AttributesGen.cpp)               *)
(* ===================================================================== *)

Module Attributes.
Import Text.
Open Scope string_scope.

(** ** The declaration model (AttributesTypes.h)

    The classes [Type], [Argument], [Function], [Attribute] and
    [SourceFileAttributes] are declared outside AttributesGen.cpp; the
    generators only use the accessors listed here. *)

(** [class Type]: [name()], [isVoid()] and [operator<<]. *)
Class TypeModel := {
  Type_ : Type;
  Type_name : Type_ -> string;
  Type_isVoid : Type_ -> bool;
  Type_print : Type_ -> string
}.

Inductive Interface := kInterfaceR | kInterfaceCpp.

Section Model.
Context `{TypeModel}.

Record Argument := {
  arg_name : string;
  arg_type : Type_;
  arg_defaultValue : string
}.

Record Function := {
  fn_type : Type_;
  fn_name : string;
  fn_arguments : list Argument
}.

Record Attribute := {
  isExportedFunction : bool;
  function : Function;
  exportedName : string;
  roxygen : list string
}.

Record SourceFileAttributes := {
  sourceFile : string;
  attributes : list Attribute;       (* begin() .. end() *)
  hasInterface : Interface -> bool
}.
End Model.

(** What the generators call from AttributesTypes.h, AttributesUtil.h
    and the standard library without defining it. *)
Class Externals `{TypeModel} := {
  (** [ExportsGenerator::generatorToken()] *)
  generatorToken : string;
  (** [isQuoted(str)] *)
  isQuoted : string -> bool;
  (** [argStream >> num] on a fresh [std::stringstream] over the text:
      [None] when the extraction fails, otherwise the characters left
      unread; [eofbit] is set exactly when nothing is left unread. *)
  extractDouble : string -> option string;
  (** [operator<<(std::ostream&, const Function&)] *)
  Function_print : Function -> string;
  (** [Function::isHidden()] *)
  Function_isHidden : Function -> bool;
  (** The canonical signature text of a return type, a name and the
      ordered argument types, see [signature_named] below. *)
  signatureText : Type_ -> string -> list Type_ -> string;
  (** [ExportsGenerator::exportValidationFunction()] and, as functions
      of [package()], [exportValidationFunctionRegisteredName()] and
      [registerCCallableExportedName()] *)
  exportValidationFunction : string;
  exportValidationFunctionRegisteredName : string -> string;
  registerCCallableExportedName : string -> string
}.

(** ** The world the generators act on

    Files by path, the paths that cannot be opened for reading or for
    writing, the directories created, a chronological trace of the
    changes made to the file system, the text printed on [Rcpp::Rcout]
    and the warnings shown. *)
Inductive event :=
| Truncated (file : string)
| Wrote (file text : string)
| Removed (file : string)
| MadeDirectory (dir : string).

Record World := {
  files : gmap string string;
  unreadable : gset string;
  unwritable : gset string;
  directories : gset string;
  trace : list event;
  Rcout : string;
  warnings : list string
}.

Definition with_files (w : World) (fs : gmap string string) (e : event) : World :=
  {| files := fs; unreadable := unreadable w; unwritable := unwritable w;
     directories := directories w; trace := trace w ++ [e];
     Rcout := Rcout w; warnings := warnings w |}.

(** ** Exceptions and the effect monad *)
Inductive exception :=
| file_io_error (file : string)
| file_exists (file : string).

Inductive outcome (A : Type) :=
| Returns (a : A)
| Throws (e : exception).
Arguments Returns {A} a.
Arguments Throws {A} e.

Definition IO (A : Type) : Type := World -> outcome A * World.

#[export] Instance IO_ret : MRet IO := fun A a w => (Returns a, w).
#[export] Instance IO_bind : MBind IO := fun A B k m w =>
  match m w with
  | (Returns a, w') => k a w'
  | (Throws e, w') => (Throws e, w')
  end.
Definition throw {A : Type} (e : exception) : IO A := fun w => (Throws e, w).

(** [FileInfo(path).exists()] *)
Definition FileInfo_exists (path : string) : IO bool :=
  fun w => (Returns (bool_decide (is_Some (files w !! path))), w).

(** [std::ifstream ifs(path)] followed by reading [ifs.rdbuf()]:
    [None] stands for [ifs.fail()]. *)
Definition ifstream_read (path : string) : IO (option string) :=
  fun w =>
    if bool_decide (path ∈ unreadable w) then (Returns None, w)
    else (Returns (files w !! path), w).

(** [std::ofstream ofs(path, out | trunc)]: [false] stands for
    [ofs.fail()]; a successful open creates or truncates the file. *)
Definition ofstream_open (path : string) : IO bool :=
  fun w =>
    if bool_decide (path ∈ unwritable w) then (Returns false, w)
    else (Returns true,
          with_files w (<[path := EmptyString]> (files w)) (Truncated path)).

(** [ofs << text; ofs.close()] on a stream opened by [ofstream_open]. *)
Definition ofstream_put (path text : string) : IO () :=
  fun w =>
    (Returns (),
     with_files w (<[path := default EmptyString (files w !! path) +:+ text]> (files w))
                (Wrote path text)).

(** Modelled from the spec: [removeFile] is declared in AttributesUtil.h,
    outside AttributesGen.cpp.  It deletes the file if present, reports
    whether a deletion occurred and never fails if the file is absent. *)
Definition removeFile (path : string) : IO bool :=
  fun w =>
    match files w !! path with
    | Some _ => (Returns true, with_files w (delete path (files w)) (Removed path))
    | None => (Returns false, w)
    end.

(** Modelled from the spec: [createDirectory] is declared in
    AttributesUtil.h, outside AttributesGen.cpp.  It creates the
    directory if necessary. *)
Definition createDirectory (path : string) : IO () :=
  fun w =>
    if bool_decide (path ∈ directories w) then (Returns (), w)
    else (Returns (),
          {| files := files w; unreadable := unreadable w; unwritable := unwritable w;
             directories := {[path]} ∪ directories w;
             trace := trace w ++ [MadeDirectory path];
             Rcout := Rcout w; warnings := warnings w |}).

(** [Rcpp::Rcout << text] *)
Definition Rcout_print (text : string) : IO () :=
  fun w =>
    (Returns (),
     {| files := files w; unreadable := unreadable w; unwritable := unwritable w;
        directories := directories w; trace := trace w;
        Rcout := Rcout w +:+ text; warnings := warnings w |}).

(** [showWarning(msg)] *)
Definition showWarning (msg : string) : IO () :=
  fun w =>
    (Returns (),
     {| files := files w; unreadable := unreadable w; unwritable := unwritable w;
        directories := directories w; trace := trace w;
        Rcout := Rcout w; warnings := warnings w ++ [msg] |}).

Section Generators.
Context `{Externals}.

(** ** [class ExportsGenerator] *)
Record ExportsGenerator := {
  targetFile_ : string;
  package_ : string;
  commentPrefix_ : string;
  existingCode_ : string;
  codeStream_ : string;
  hasCppInterface_ : bool
}.

(** [ostr() << text] *)
Definition ostr (g : ExportsGenerator) (text : string) : ExportsGenerator :=
  {| targetFile_ := targetFile_ g; package_ := package_ g;
     commentPrefix_ := commentPrefix_ g; existingCode_ := existingCode_ g;
     codeStream_ := codeStream_ g +:+ text;
     hasCppInterface_ := hasCppInterface_ g |}.

Definition set_hasCppInterface (g : ExportsGenerator) (b : bool) : ExportsGenerator :=
  {| targetFile_ := targetFile_ g; package_ := package_ g;
     commentPrefix_ := commentPrefix_ g; existingCode_ := existingCode_ g;
     codeStream_ := codeStream_ g;
     hasCppInterface_ := b |}.

(** The two comment lines that open every generated file, as
    [commit] writes them. *)
Definition generatorMarker (commentPrefix : string) : string :=
  commentPrefix +:+ " This file was generated by "
                +:+ "Rcpp::compileAttributes" +:+ nl
  +:+ commentPrefix +:+ " Generator token: " +:+ generatorToken +:+ nl.

(** Modelled from the spec: [ExportsGenerator::isSafeToOverwrite()] is
    declared in AttributesGen.h, outside AttributesGen.cpp.  A target
    file that exists is safe to overwrite when its first two lines are
    the generator marker; a path with no file is safe. *)
Definition isSafeToOverwrite (g : ExportsGenerator) : IO bool :=
  exists_ ← FileInfo_exists (targetFile_ g);
  mret (negb exists_
        || String.prefix (generatorMarker (commentPrefix_ g)) (existingCode_ g)).

(** [ExportsGenerator::ExportsGenerator(targetFile, package, commentPrefix)] *)
Definition ExportsGenerator_new (targetFile package commentPrefix : string)
  : IO ExportsGenerator :=
  (* read the existing target file if it exists *)
  exists_ ← FileInfo_exists targetFile;
  existingCode ←
    (if exists_ : bool then
       ifs ← ifstream_read targetFile;
       match ifs with
       | None => throw (file_io_error targetFile)
       | Some buffer => mret buffer
       end
     else mret EmptyString);
  let g := {| targetFile_ := targetFile; package_ := package;
              commentPrefix_ := commentPrefix; existingCode_ := existingCode;
              codeStream_ := EmptyString; hasCppInterface_ := false |} in
  (* see if this is safe to overwrite and throw if it isn't *)
  safe ← isSafeToOverwrite g;
  if negb safe then throw (file_exists targetFile) else mret g.

(** [ExportsGenerator::writeFunctions(attributes, verbose)], with the
    virtual [doWriteFunctions] of the concrete generator [G]. *)
Definition ExportsGenerator_writeFunctions {G : Type}
    (base : G -> ExportsGenerator) (set_base : G -> ExportsGenerator -> G)
    (doWriteFunctions : G -> SourceFileAttributes -> bool -> IO G)
    (g : G) (attrs : SourceFileAttributes) (verbose : bool) : IO G :=
  let g :=
    if hasInterface attrs kInterfaceCpp
    then set_base g (set_hasCppInterface (base g) true)
    else g in
  doWriteFunctions g attrs verbose.

(** The header [commit] puts in front of the generated code. *)
Definition headerStream (g : ExportsGenerator) (preamble : string) : string :=
  (commentPrefix_ g +:+ " This file was generated by "
                    +:+ "Rcpp::compileAttributes" +:+ nl)
  +:+ (commentPrefix_ g +:+ " Generator token: "
                    +:+ generatorToken +:+ nl +:+ nl)
  +:+ (if negb (empty preamble) then preamble else EmptyString).

Definition generatedCode (g : ExportsGenerator) (preamble : string) : string :=
  headerStream g preamble +:+ codeStream_ g.

(** [ExportsGenerator::commit(preamble)] *)
Definition ExportsGenerator_commit (g : ExportsGenerator) (preamble : string)
  : IO bool :=
  (* get the generated code *)
  let code := codeStream_ g in
  (* if there is no generated code AND the exports file does not
     currently exist then do nothing *)
  exists_ ← FileInfo_exists (targetFile_ g);
  if empty code && negb exists_ then mret false
  else
    (* get generated code and only write it if there was a change *)
    let generatedCode := headerStream g preamble +:+ code in
    if negb (String.eqb generatedCode (existingCode_ g)) then
      opened ← ofstream_open (targetFile_ g);
      if negb opened then throw (file_io_error (targetFile_ g))
      else
        _ ← ofstream_put (targetFile_ g) generatedCode;
        mret true
    else mret false.

(** [ExportsGenerator::remove()] *)
Definition ExportsGenerator_remove (g : ExportsGenerator) : IO bool :=
  removeFile (targetFile_ g).

(** ** Converting C++ default arguments to R default arguments *)

(** [cppNumericArgToRArg(type, cppArg)] *)
Definition cppNumericArgToRArg (type cppArg : string) : string :=
  (* check for a number *)
  match extractDouble cppArg with
  | Some unread =>
      (* L suffix means return the value literally *)
      let literally :=
        if negb (empty unread) (* !argStream.eof() *) then
          let '(suffix, eof) := extract_word unread in
          eof && String.eqb suffix "L"
        else false in
      if literally then cppArg
      (* no decimal and the type isn't explicitly double or
         float means integer *)
      else if negb (contains_char "." cppArg)
              && negb (String.eqb type "double")
              && negb (String.eqb type "float")
      then cppArg +:+ "L"
      (* otherwise return arg literally *)
      else cppArg
  | None => EmptyString
  end.

(** [cppCreateArgToRArg(cppArg)] *)
Definition cppCreateArgToRArg (cppArg : string) : string :=
  let create := "::create" in
  match find cppArg create with
  | None => EmptyString
  | Some createLoc =>
      if Nat.leb (String.length cppArg) (createLoc + String.length create)
      then EmptyString
      else
        let type := substr cppArg 0 createLoc in
        let rcppScope := "Rcpp::" in
        let type :=
          match find type rcppScope with
          | Some O =>
              if Nat.ltb (String.length rcppScope) (String.length type)
              then substr_from type (String.length rcppScope)
              else type
          | _ => type
          end in
        let args := substr_from cppArg (createLoc + String.length create) in
        if String.eqb type "CharacterVector" then "character" +:+ args
        else if String.eqb type "IntegerVector" then "integer" +:+ args
        else if String.eqb type "NumericVector" then "numeric" +:+ args
        else EmptyString
  end.

(** [cppMatrixArgToRArg(cppArg)] *)
Definition cppMatrixArgToRArg (cppArg : string) : string :=
  (* look for Matrix *)
  let matrix := "Matrix" in
  match find cppArg matrix with
  | None => EmptyString
  | Some matrixLoc =>
      if Nat.leb (String.length cppArg) (matrixLoc + String.length matrix)
      then EmptyString
      else
        let args := substr_from cppArg (matrixLoc + String.length matrix) in
        "matrix" +:+ args
  end.

(** [cppLiteralArgToRArg(cppArg)] *)
Definition cppLiteralArgToRArg (cppArg : string) : string :=
  if String.eqb cppArg "true" then "TRUE"
  else if String.eqb cppArg "false" then "FALSE"
  else if String.eqb cppArg "R_NilValue" then "NULL"
  else if String.eqb cppArg "NA_STRING" || String.eqb cppArg "NA_INTEGER"
          || String.eqb cppArg "NA_LOGICAL" || String.eqb cppArg "NA_REAL"
  then "NA"
  else EmptyString.

(** [cppArgToRArg(type, cppArg)] *)
Definition cppArgToRArg (type cppArg : string) : string :=
  (* try for quoted string *)
  if isQuoted cppArg then cppArg
  else
    (* try for literal *)
    let rArg := cppLiteralArgToRArg cppArg in
    if negb (empty rArg) then rArg
    else
      (* try for a create arg *)
      let rArg := cppCreateArgToRArg cppArg in
      if negb (empty rArg) then rArg
      else
        (* try for a matrix arg *)
        let rArg := cppMatrixArgToRArg cppArg in
        if negb (empty rArg) then rArg
        else
          (* try for a numeric arg *)
          let rArg := cppNumericArgToRArg type cppArg in
          if negb (empty rArg) then rArg
          else
            (* couldn't parse the arg *)
            EmptyString.

(** The warning of [generateRArgList] for a default value that could
    not be converted. *)
Definition unparsedWarning (function : Function) (argument : Argument) : string :=
  "Unable to parse C++ default value '" +:+ arg_defaultValue argument
    +:+ "' for argument " +:+ arg_name argument
    +:+ " of function " +:+ fn_name function.

(** The body of the loop of [generateRArgList] from index [i] on,
    [arguments] being the elements from [i] on and [size] the length
    of the whole vector. *)
Fixpoint generateRArgList_from (function : Function) (size i : nat)
    (arguments : list Argument) (argsOstr : string) : IO string :=
  match arguments with
  | [] => mret argsOstr
  | argument :: arguments' =>
      let argsOstr := argsOstr +:+ arg_name argument in
      argsOstr ←
        (if negb (empty (arg_defaultValue argument)) then
           let rArg := cppArgToRArg (Type_name (arg_type argument))
                                    (arg_defaultValue argument) in
           if negb (empty rArg) then mret (argsOstr +:+ " = " +:+ rArg)
           else
             _ ← showWarning (unparsedWarning function argument);
             mret argsOstr
         else mret argsOstr);
      let argsOstr :=
        if negb (Nat.eqb i (size - 1)) then argsOstr +:+ ", " else argsOstr in
      generateRArgList_from function size (S i) arguments' argsOstr
  end.

(** [generateRArgList(function)] *)
Definition generateRArgList (function : Function) : IO string :=
  let arguments := fn_arguments function in
  generateRArgList_from function (length arguments) 0 arguments EmptyString.

(** Text written by [for (size_t i = 0; i < v.size(); i++) body], the
    vector being given by its elements from index [i] on. *)
Fixpoint for_each {A : Type} (body : nat -> A -> string) (i : nat) (v : list A)
  : string :=
  match v with
  | [] => EmptyString
  | x :: v' => body i x +:+ for_each body (S i) v'
  end.

(** The separator written [if (i != (size - 1))]. *)
Definition unless_last (i size : nat) (separator : string) : string :=
  if negb (Nat.eqb i (size - 1)) then separator else EmptyString.

(** [generateCpp(ostr, attributes, includePrototype, contextId)]: the
    text written for one exported function, and for a whole file. *)
Definition generateCpp_function (function : Function)
    (includePrototype : bool) (contextId : string) : string :=
  let arguments := fn_arguments function in
  let size := length arguments in
  (* include prototype if requested *)
  (if includePrototype
   then "// " +:+ fn_name function +:+ nl +:+ Function_print function +:+ ";"
   else EmptyString)
  (* write the SEXP-based function *)
  +:+ nl +:+ "RcppExport SEXP "
  +:+ (if negb (empty contextId) then contextId +:+ "_" else EmptyString)
  +:+ fn_name function +:+ "("
  +:+ for_each (fun i argument =>
                  "SEXP " +:+ arg_name argument +:+ "SEXP"
                  +:+ unless_last i size ", ") 0 arguments
  +:+ ") {" +:+ nl
  +:+ "BEGIN_RCPP" +:+ nl
  +:+ for_each (fun _ argument =>
                  (* Rcpp::as to c++ type *)
                  "    " +:+ Type_name (arg_type argument) +:+ " "
                  +:+ arg_name argument +:+ " = " +:+ "Rcpp::as<"
                  +:+ Type_name (arg_type argument) +:+ " >("
                  +:+ arg_name argument +:+ "SEXP);" +:+ nl) 0 arguments
  +:+ "    "
  +:+ (if negb (Type_isVoid (fn_type function))
       then Type_print (fn_type function) +:+ " result = "
       else EmptyString)
  +:+ fn_name function +:+ "("
  +:+ for_each (fun i argument =>
                  arg_name argument +:+ unless_last i size ", ") 0 arguments
  +:+ ");" +:+ nl
  +:+ "    return "
  +:+ (if Type_isVoid (fn_type function) then "R_NilValue" else "Rcpp::wrap(result)")
  +:+ ";" +:+ nl
  +:+ "END_RCPP" +:+ nl
  +:+ "}" +:+ nl.

Definition generateCpp (attrs : SourceFileAttributes)
    (includePrototype : bool) (contextId : string) : string :=
  for_each (fun _ attribute =>
              (* alias the attribute and function (bail if not export) *)
              if negb (isExportedFunction attribute) then EmptyString
              else generateCpp_function (function attribute)
                                        includePrototype contextId)
           0 (attributes attrs).

(** ** Signatures *)

(** Modelled from the spec: [Function::renamedTo(name)] is declared in
    AttributesTypes.h, outside AttributesGen.cpp.  It is the function
    under another name. *)
Definition renamedTo (f : Function) (name : string) : Function :=
  {| fn_type := fn_type f; fn_name := name; fn_arguments := fn_arguments f |}.

(** Modelled from the spec: [Function::signature(name)] is declared in
    AttributesTypes.h, outside AttributesGen.cpp.  The signature text is
    a canonical string built from the return type of the function, the
    name and the ordered argument types. *)
Definition signature_named (f : Function) (name : string) : string :=
  signatureText (fn_type f) name (map arg_type (fn_arguments f)).

(** Modelled from the spec: [Function::signature()] is declared in
    AttributesTypes.h, outside AttributesGen.cpp.  It is the signature
    text under the name of the function itself. *)
Definition signature (f : Function) : string :=
  signature_named f (fn_name f).

(** ** [class CppExportsGenerator] *)
Definition kRcppExportsSuffix : string := "_RcppExports.h".

Record CppExportsGenerator := {
  cpp_base : ExportsGenerator;
  cppExports_ : list Attribute
}.

Definition CppExportsGenerator_new (packageDir package fileSep : string)
  : IO CppExportsGenerator :=
  base ← ExportsGenerator_new
           (packageDir +:+ fileSep +:+ "src" +:+ fileSep +:+ "RcppExports.cpp")
           package "//";
  mret {| cpp_base := base; cppExports_ := [] |}.

(** The loop of [doWriteFunctions] that tracks the C++ exports. *)
Fixpoint track_cppExports (its : list Attribute) (cppExports : list Attribute)
  : list Attribute :=
  match its with
  | [] => cppExports
  | it :: its' =>
      if isExportedFunction it then
        (* add it to the list if it's not hidden *)
        let fun_ := renamedTo (function it) (exportedName it) in
        if negb (Function_isHidden fun_)
        then track_cppExports its' (cppExports ++ [it])
        else track_cppExports its' cppExports
      else track_cppExports its' cppExports
  end.

(** [CppExportsGenerator::doWriteFunctions(attributes, verbose)] *)
Definition CppExportsGenerator_doWriteFunctions (g : CppExportsGenerator)
    (attrs : SourceFileAttributes) (verbose : bool) : IO CppExportsGenerator :=
  (* generate functions *)
  let base := ostr (cpp_base g) (generateCpp attrs true (package_ (cpp_base g))) in
  (* track cppExports and signatures *)
  let cppExports :=
    if hasInterface attrs kInterfaceCpp
    then track_cppExports (attributes attrs) (cppExports_ g)
    else cppExports_ g in
  (* verbose if requested *)
  _ ← (if verbose then
         Rcout_print
           ("Exports from " +:+ sourceFile attrs +:+ ":" +:+ nl
            +:+ for_each (fun _ it =>
                            if isExportedFunction it
                            then "   " +:+ Function_print (function it) +:+ nl
                            else EmptyString) 0 (attributes attrs)
            +:+ nl)
       else mret ());
  mret {| cpp_base := base; cppExports_ := cppExports |}.

(** [CppExportsGenerator::registerCCallable(indent, exportedName, name)] *)
Definition registerCCallable (package : string) (indent : nat)
    (exportedName name : string) : string :=
  let indentStr := spaces indent in
  indentStr +:+ "R_RegisterCCallable(" +:+ dq +:+ package +:+ dq +:+ ", "
    +:+ dq +:+ package +:+ "_" +:+ exportedName +:+ dq +:+ ", "
    +:+ "(DL_FUNC)" +:+ package +:+ "_" +:+ name +:+ ");".

(** The line [writeEnd] writes for one tracked attribute. *)
Definition signatures_insert (attr : Attribute) : string :=
  "        signatures.insert(" +:+ dq
    +:+ signature_named (function attr) (exportedName attr)
    +:+ dq +:+ ");" +:+ nl.

(** [CppExportsGenerator::writeEnd()] *)
Definition CppExportsGenerator_writeEnd_text (g : CppExportsGenerator) : string :=
  let package := package_ (cpp_base g) in
  nl
  +:+ "// validate" +:+ " (ensure exported C++ functions exist before "
  +:+ "calling them)" +:+ nl
  +:+ "static int " +:+ exportValidationFunctionRegisteredName package
  +:+ "(const char* sig) { " +:+ nl
  +:+ "    static std::set<std::string> signatures;" +:+ nl
  +:+ "    if (signatures.empty()) {" +:+ nl
  +:+ for_each (fun _ attr => signatures_insert attr) 0 (cppExports_ g)
  +:+ "    }" +:+ nl
  +:+ "    return signatures.find(sig) != signatures.end();" +:+ nl
  +:+ "}" +:+ nl
  (* generate a function that will register all of our C++
     exports as C-callable from other packages *)
  +:+ nl
  +:+ "// registerCCallable (register entry points for "
  +:+ "exported C++ functions)" +:+ nl
  +:+ "RcppExport SEXP " +:+ registerCCallableExportedName package
  +:+ "() { " +:+ nl
  +:+ for_each (fun _ attr =>
                  registerCCallable package 4 (exportedName attr)
                                    (fn_name (function attr))
                  +:+ nl) 0 (cppExports_ g)
  +:+ registerCCallable package 4 exportValidationFunction exportValidationFunction
  +:+ nl
  +:+ "    return R_NilValue;" +:+ nl
  +:+ "}" +:+ nl.

Definition CppExportsGenerator_writeEnd (g : CppExportsGenerator)
  : CppExportsGenerator :=
  if hasCppInterface_ (cpp_base g) then
    {| cpp_base := ostr (cpp_base g) (CppExportsGenerator_writeEnd_text g);
       cppExports_ := cppExports_ g |}
  else g.

(** [CppExportsGenerator::commit(includes)] *)
Definition CppExportsGenerator_commit (g : CppExportsGenerator)
    (includes : list string) : IO bool :=
  let ostr :=
    (* includes *)
    (if negb (bool_decide (includes = []))
     then for_each (fun _ include => include +:+ nl) 0 includes
     else EmptyString)
    +:+ "#include <string>" +:+ nl
    +:+ "#include <set>" +:+ nl
    +:+ nl
    (* always bring in Rcpp *)
    +:+ "using namespace Rcpp;" +:+ nl +:+ nl in
  (* commit with preamble *)
  ExportsGenerator_commit (cpp_base g) ostr.

(** ** [class CppExportsIncludeGenerator] *)
Record CppExportsIncludeGenerator := {
  inc_base : ExportsGenerator;
  inc_includeDir_ : string
}.

Definition CppExportsIncludeGenerator_new (packageDir package fileSep : string)
  : IO CppExportsIncludeGenerator :=
  base ← ExportsGenerator_new
           (packageDir +:+ fileSep +:+ "inst" +:+ fileSep +:+ "include"
            +:+ fileSep +:+ package +:+ kRcppExportsSuffix)
           package "//";
  mret {| inc_base := base;
          inc_includeDir_ :=
            packageDir +:+ fileSep +:+ "inst" +:+ fileSep +:+ "include" |}.

(** [CppExportsIncludeGenerator::getCCallable(function)] *)
Definition getCCallable (package function : string) : string :=
  "R_GetCCallable" +:+ "(" +:+ dq +:+ package +:+ dq +:+ ", "
    +:+ dq +:+ function +:+ dq +:+ ")".

(** [CppExportsIncludeGenerator::getHeaderGuard()] *)
Definition CppExportsIncludeGenerator_getHeaderGuard (package : string) : string :=
  "__" +:+ package +:+ "_RcppExports_h__".

(** [CppExportsIncludeGenerator::writeBegin()] *)
Definition CppExportsIncludeGenerator_writeBegin (g : CppExportsIncludeGenerator)
  : CppExportsIncludeGenerator :=
  let package := package_ (inc_base g) in
  let validate := "validate" in
  let fnType := "Ptr_" +:+ validate in
  let ptrName := "p_" +:+ validate in
  {| inc_base :=
       ostr (inc_base g)
         ("namespace " +:+ package +:+ " {" +:+ nl +:+ nl
          +:+ "    using namespace Rcpp;" +:+ nl +:+ nl
          +:+ "    namespace {" +:+ nl
          +:+ "        void validateSignature(const char* sig) {" +:+ nl
          +:+ "            Rcpp::Function require = "
          +:+ "Rcpp::Environment::base_env()[" +:+ dq +:+ "require" +:+ dq +:+ "];"
          +:+ nl
          +:+ "            require(" +:+ dq +:+ package +:+ dq +:+ ", "
          +:+ "Rcpp::Named(" +:+ dq +:+ "quietly" +:+ dq +:+ ") = true);"
          +:+ nl
          +:+ "            typedef int(*" +:+ fnType +:+ ")(const char*);" +:+ nl
          +:+ "            static " +:+ fnType +:+ " " +:+ ptrName +:+ " = "
          +:+ "(" +:+ fnType +:+ ")" +:+ nl
          +:+ "                "
          +:+ getCCallable package (exportValidationFunctionRegisteredName package)
          +:+ ";" +:+ nl
          +:+ "            if (!" +:+ ptrName +:+ "(sig)) {" +:+ nl
          +:+ "                throw Rcpp::function_not_exported(" +:+ nl
          +:+ "                    "
          +:+ dq +:+ "C++ function with signature '" +:+ dq
          +:+ " + std::string(sig) + " +:+ dq +:+ "' not found in " +:+ package
          +:+ dq +:+ ");" +:+ nl
          +:+ "            }" +:+ nl
          +:+ "        }" +:+ nl
          +:+ "    }" +:+ nl +:+ nl);
     inc_includeDir_ := inc_includeDir_ g |}.

(** The call [doWriteFunctions] writes to validate a signature. *)
Definition validateSignature_call (function : Function) : string :=
  "            validateSignature" +:+ "(" +:+ dq +:+ signature function
    +:+ dq +:+ ");" +:+ nl.

(** The inline wrapper [doWriteFunctions] writes for one function that
    is exported and not hidden. *)
Definition CppExportsIncludeGenerator_function_text (package : string)
    (function : Function) : string :=
  let fnType := "Ptr_" +:+ fn_name function in
  let ptrName := "p_" +:+ fn_name function in
  let args := fn_arguments function in
  "    inline " +:+ Function_print function +:+ " {" +:+ nl
  +:+ "        typedef SEXP(*" +:+ fnType +:+ ")("
  +:+ for_each (fun i _ => "SEXP" +:+ unless_last i (length args) ",") 0 args
  +:+ ");" +:+ nl
  +:+ "        static " +:+ fnType +:+ " " +:+ ptrName +:+ " = NULL;" +:+ nl
  +:+ "        if (" +:+ ptrName +:+ " == NULL) {" +:+ nl
  +:+ validateSignature_call function
  +:+ "            " +:+ ptrName +:+ " = " +:+ "(" +:+ fnType +:+ ")"
  +:+ getCCallable package (package +:+ "_" +:+ fn_name function) +:+ ";" +:+ nl
  +:+ "        }" +:+ nl
  +:+ "        SEXP resultSEXP = " +:+ ptrName +:+ "("
  +:+ for_each (fun i arg =>
                  "Rcpp::wrap(" +:+ arg_name arg +:+ ")"
                  +:+ unless_last i (length args) ", ") 0 args
  +:+ ");" +:+ nl
  +:+ "        return Rcpp::as<" +:+ Type_print (fn_type function) +:+ " >"
  +:+ "(resultSEXP);" +:+ nl
  +:+ "    }" +:+ nl +:+ nl.

(** The body of the loop of [doWriteFunctions] for one attribute. *)
Definition CppExportsIncludeGenerator_attribute_text (package : string)
    (it : Attribute) : string :=
  if isExportedFunction it then
    let function := renamedTo (function it) (exportedName it) in
    (* if it's hidden then don't generate a C++ interface *)
    if Function_isHidden function then EmptyString
    else CppExportsIncludeGenerator_function_text package function
  else EmptyString.

(** [CppExportsIncludeGenerator::doWriteFunctions(attributes, verbose)] *)
Definition CppExportsIncludeGenerator_doWriteFunctions
    (g : CppExportsIncludeGenerator) (attrs : SourceFileAttributes)
    (verbose : bool) : IO CppExportsIncludeGenerator :=
  (* don't write anything if there is no C++ interface *)
  if negb (hasInterface attrs kInterfaceCpp) then mret g
  else
    mret {| inc_base :=
              ostr (inc_base g)
                (for_each (fun _ it =>
                             CppExportsIncludeGenerator_attribute_text
                               (package_ (inc_base g)) it)
                          0 (attributes attrs));
            inc_includeDir_ := inc_includeDir_ g |}.

(** [CppExportsIncludeGenerator::writeEnd()] *)
Definition CppExportsIncludeGenerator_writeEnd (g : CppExportsIncludeGenerator)
  : CppExportsIncludeGenerator :=
  {| inc_base :=
       ostr (inc_base g)
         ("}" +:+ nl +:+ nl +:+ "#endif // "
          +:+ CppExportsIncludeGenerator_getHeaderGuard (package_ (inc_base g))
          +:+ nl);
     inc_includeDir_ := inc_includeDir_ g |}.

(** [CppExportsIncludeGenerator::commit(includes)] *)
Definition CppExportsIncludeGenerator_preamble (g : CppExportsIncludeGenerator)
    (includes : list string) : string :=
  (* header guard *)
  let guard := CppExportsIncludeGenerator_getHeaderGuard (package_ (inc_base g)) in
  "#ifndef " +:+ guard +:+ nl
  +:+ "#define " +:+ guard +:+ nl +:+ nl
  (* includes *)
  +:+ (if negb (bool_decide (includes = []))
       then for_each (fun _ include => include +:+ nl) 0 includes +:+ nl
       else EmptyString).

Definition CppExportsIncludeGenerator_commit (g : CppExportsIncludeGenerator)
    (includes : list string) : IO bool :=
  if hasCppInterface_ (inc_base g) then
    (* create the include dir if necessary *)
    _ ← createDirectory (inc_includeDir_ g);
    (* commit with preamble *)
    ExportsGenerator_commit (inc_base g)
                            (CppExportsIncludeGenerator_preamble g includes)
  else ExportsGenerator_remove (inc_base g).

(** ** [class CppPackageIncludeGenerator] *)
Record CppPackageIncludeGenerator := {
  pkg_base : ExportsGenerator;
  pkg_includeDir_ : string
}.

Definition CppPackageIncludeGenerator_new (packageDir package fileSep : string)
  : IO CppPackageIncludeGenerator :=
  base ← ExportsGenerator_new
           (packageDir +:+ fileSep +:+ "inst" +:+ fileSep +:+ "include"
            +:+ fileSep +:+ package +:+ ".h")
           package "//";
  mret {| pkg_base := base;
          pkg_includeDir_ :=
            packageDir +:+ fileSep +:+ "inst" +:+ fileSep +:+ "include" |}.

(** [CppPackageIncludeGenerator::getHeaderGuard()] *)
Definition CppPackageIncludeGenerator_getHeaderGuard (package : string) : string :=
  "__" +:+ package +:+ "_h__".

(** Modelled from the spec: [CppPackageIncludeGenerator::doWriteFunctions]
    is defined in AttributesGen.h, outside AttributesGen.cpp.  The
    umbrella header generator writes nothing per function. *)
Definition CppPackageIncludeGenerator_doWriteFunctions
    (g : CppPackageIncludeGenerator) (attrs : SourceFileAttributes)
    (verbose : bool) : IO CppPackageIncludeGenerator :=
  mret g.

(** [CppPackageIncludeGenerator::writeEnd()] *)
Definition CppPackageIncludeGenerator_writeEnd (g : CppPackageIncludeGenerator)
  : CppPackageIncludeGenerator :=
  if hasCppInterface_ (pkg_base g) then
    let package := package_ (pkg_base g) in
    (* header guard *)
    let guard := CppPackageIncludeGenerator_getHeaderGuard package in
    {| pkg_base :=
         ostr (pkg_base g)
           ("#ifndef " +:+ guard +:+ nl
            +:+ "#define " +:+ guard +:+ nl +:+ nl
            +:+ "#include " +:+ dq +:+ package +:+ kRcppExportsSuffix +:+ dq +:+ nl
            +:+ nl
            +:+ "#endif // " +:+ CppPackageIncludeGenerator_getHeaderGuard package
            +:+ nl);
       pkg_includeDir_ := pkg_includeDir_ g |}
  else g.

(** [CppPackageIncludeGenerator::commit(includes)]; the preamble of
    [ExportsGenerator::commit()] defaults to the empty string. *)
Definition CppPackageIncludeGenerator_commit (g : CppPackageIncludeGenerator)
    (includes : list string) : IO bool :=
  if hasCppInterface_ (pkg_base g) then
    (* create the include dir if necessary *)
    _ ← createDirectory (pkg_includeDir_ g);
    (* commit *)
    ExportsGenerator_commit (pkg_base g) EmptyString
  else ExportsGenerator_remove (pkg_base g).

(** ** [class RExportsGenerator] *)
Record RExportsGenerator := {
  r_base : ExportsGenerator
}.

Definition RExportsGenerator_new (packageDir package fileSep : string)
  : IO RExportsGenerator :=
  base ← ExportsGenerator_new
           (packageDir +:+ fileSep +:+ "R" +:+ fileSep +:+ "RcppExports.R")
           package "#";
  mret {| r_base := base |}.

(** The text [doWriteFunctions] writes for one exported function, its
    parameter list [args] being built already. *)
Definition RExportsGenerator_function_text (package : string)
    (attribute : Attribute) (args : string) : string :=
  let function := function attribute in
  (* print roxygen lines *)
  for_each (fun _ line => line +:+ nl) 0 (roxygen attribute)
  (* determine the function name *)
  +:+ (let name := exportedName attribute in
       (* write the function *)
       name +:+ " <- function(" +:+ args +:+ ") {" +:+ nl)
  +:+ "    "
  +:+ (if Type_isVoid (fn_type function) then "invisible(" else EmptyString)
  +:+ ".Call("
  +:+ "'" +:+ package +:+ "_" +:+ fn_name function +:+ "', "
  +:+ "PACKAGE = '" +:+ package +:+ "'"
  (* add arguments *)
  +:+ for_each (fun _ argument => ", " +:+ arg_name argument) 0
               (fn_arguments function)
  +:+ ")"
  +:+ (if Type_isVoid (fn_type function) then ")" else EmptyString)
  +:+ nl
  +:+ "}" +:+ nl +:+ nl.

(** The loop of [doWriteFunctions] over the attributes of a file. *)
Fixpoint RExportsGenerator_each (g : ExportsGenerator) (its : list Attribute)
  : IO ExportsGenerator :=
  match its with
  | [] => mret g
  | attribute :: its' =>
      (* alias the attribute and function (bail if not export) *)
      if negb (isExportedFunction attribute) then RExportsGenerator_each g its'
      else
        (* build the parameter list *)
        args ← generateRArgList (function attribute);
        RExportsGenerator_each
          (ostr g (RExportsGenerator_function_text (package_ g) attribute args))
          its'
  end.

(** [RExportsGenerator::doWriteFunctions(attributes, verbose)] *)
Definition RExportsGenerator_doWriteFunctions (g : RExportsGenerator)
    (attrs : SourceFileAttributes) (verbose : bool) : IO RExportsGenerator :=
  if hasInterface attrs kInterfaceR then
    (* process each attribute *)
    base ← RExportsGenerator_each (r_base g) (attributes attrs);
    mret {| r_base := base |}
  else mret g.

(** [RExportsGenerator::writeEnd()] *)
Definition RExportsGenerator_writeEnd (g : RExportsGenerator) : RExportsGenerator :=
  if hasCppInterface_ (r_base g) then
    let package := package_ (r_base g) in
    (* register all C-callable functions *)
    {| r_base :=
         ostr (r_base g)
           ("# Register entry points for exported C++ functions" +:+ nl
            +:+ "methods::setLoadAction(function(ns) {" +:+ nl
            +:+ "    .Call('" +:+ registerCCallableExportedName package
            +:+ "', PACKAGE = '" +:+ package +:+ "')"
            +:+ nl +:+ "})" +:+ nl) |}
  else g.

(** [RExportsGenerator::commit(includes)] *)
Definition RExportsGenerator_commit (g : RExportsGenerator)
    (includes : list string) : IO bool :=
  ExportsGenerator_commit (r_base g) EmptyString.

(** ** [class ExportsGenerators]

    The generators are held through base class pointers; the virtual
    calls dispatch on the dynamic type. *)
Inductive Generator :=
| Cpp (g : CppExportsGenerator)
| CppInclude (g : CppExportsIncludeGenerator)
| CppPackage (g : CppPackageIncludeGenerator)
| R (g : RExportsGenerator).

Definition base_of (g : Generator) : ExportsGenerator :=
  match g with
  | Cpp g => cpp_base g
  | CppInclude g => inc_base g
  | CppPackage g => pkg_base g
  | R g => r_base g
  end.

Definition targetFile (g : Generator) : string := targetFile_ (base_of g).
Definition hasCppInterface (g : Generator) : bool := hasCppInterface_ (base_of g).

(** Modelled from the spec: the [writeBegin] of the call adapter, the
    umbrella header and the R wrapper generators are defined in
    AttributesGen.h, outside AttributesGen.cpp; they write nothing. *)
Definition writeBegin (g : Generator) : Generator :=
  match g with
  | CppInclude g => CppInclude (CppExportsIncludeGenerator_writeBegin g)
  | _ => g
  end.

Definition writeFunctions (g : Generator) (attrs : SourceFileAttributes)
    (verbose : bool) : IO Generator :=
  match g with
  | Cpp g =>
      g' ← ExportsGenerator_writeFunctions cpp_base
                (fun g b => {| cpp_base := b; cppExports_ := cppExports_ g |})
                CppExportsGenerator_doWriteFunctions g attrs verbose;
      mret (Cpp g')
  | CppInclude g =>
      g' ← ExportsGenerator_writeFunctions inc_base
                (fun g b => {| inc_base := b; inc_includeDir_ := inc_includeDir_ g |})
                CppExportsIncludeGenerator_doWriteFunctions g attrs verbose;
      mret (CppInclude g')
  | CppPackage g =>
      g' ← ExportsGenerator_writeFunctions pkg_base
                (fun g b => {| pkg_base := b; pkg_includeDir_ := pkg_includeDir_ g |})
                CppPackageIncludeGenerator_doWriteFunctions g attrs verbose;
      mret (CppPackage g')
  | R g =>
      g' ← ExportsGenerator_writeFunctions r_base
                (fun g b => {| r_base := b |})
                RExportsGenerator_doWriteFunctions g attrs verbose;
      mret (R g')
  end.

Definition writeEnd (g : Generator) : Generator :=
  match g with
  | Cpp g => Cpp (CppExportsGenerator_writeEnd g)
  | CppInclude g => CppInclude (CppExportsIncludeGenerator_writeEnd g)
  | CppPackage g => CppPackage (CppPackageIncludeGenerator_writeEnd g)
  | R g => R (RExportsGenerator_writeEnd g)
  end.

Definition commit (g : Generator) (includes : list string) : IO bool :=
  match g with
  | Cpp g => CppExportsGenerator_commit g includes
  | CppInclude g => CppExportsIncludeGenerator_commit g includes
  | CppPackage g => CppPackageIncludeGenerator_commit g includes
  | R g => RExportsGenerator_commit g includes
  end.

Definition remove (g : Generator) : IO bool := ExportsGenerator_remove (base_of g).

(** [ExportsGenerators::writeBegin()], [writeFunctions(attributes,
    verbose)] and [writeEnd()] over [generators_]. *)
Definition ExportsGenerators_writeBegin (generators : list Generator)
  : list Generator :=
  map writeBegin generators.

Fixpoint ExportsGenerators_writeFunctions (generators : list Generator)
    (attrs : SourceFileAttributes) (verbose : bool) : IO (list Generator) :=
  match generators with
  | [] => mret []
  | it :: rest =>
      it' ← writeFunctions it attrs verbose;
      rest' ← ExportsGenerators_writeFunctions rest attrs verbose;
      mret (it' :: rest')
  end.

Definition ExportsGenerators_writeEnd (generators : list Generator)
  : list Generator :=
  map writeEnd generators.

(** [ExportsGenerators::commit(includes)]: the files that were updated. *)
Fixpoint ExportsGenerators_commit (generators : list Generator)
    (includes : list string) (updated : list string) : IO (list string) :=
  match generators with
  | [] => mret updated
  | it :: rest =>
      changed ← commit it includes;
      ExportsGenerators_commit rest includes
        (if changed : bool then updated ++ [targetFile it] else updated)
  end.

(** [ExportsGenerators::remove()]: the files that were removed. *)
Fixpoint ExportsGenerators_remove (generators : list Generator)
    (removed : list string) : IO (list string) :=
  match generators with
  | [] => mret removed
  | it :: rest =>
      gone ← remove it;
      ExportsGenerators_remove rest
        (if gone : bool then removed ++ [targetFile it] else removed)
  end.

(** The driver's use of one generator: [writeFunctions] once per source
    file, in order. *)
Fixpoint writeFunctions_all (g : Generator) (sources : list SourceFileAttributes)
    (verbose : bool) : IO Generator :=
  match sources with
  | [] => mret g
  | attrs :: sources' =>
      g' ← writeFunctions g attrs verbose;
      writeFunctions_all g' sources' verbose
  end.

End Generators.

End Attributes.

(* ===================================================================== *)
(** * The vocabulary of the properties                                    *)
(* ===================================================================== *)

Module Spec.
Import Text Attributes.
Open Scope string_scope.

(** Every character of the text is a blank. *)
Fixpoint all_space (s : string) : bool :=
  match s with
  | EmptyString => true
  | String c s' => isspace c && all_space s'
  end.

(** What follows the number is the integer literal suffix: [L],
    possibly after blanks, and nothing else. *)
Definition is_L_suffix (unread : string) : Prop :=
  exists blanks, all_space blanks = true /\ unread = blanks +:+ "L".

(** The piece is part of the text. *)
Definition occurs_in (piece text : string) : Prop :=
  exists before after, text = before +:+ piece +:+ after.

(** The keywords of the literal translator with their R tokens. *)
Definition literal_keywords : list (string * string) :=
  [ ("true", "TRUE"); ("false", "FALSE"); ("R_NilValue", "NULL");
    ("NA_STRING", "NA"); ("NA_INTEGER", "NA"); ("NA_LOGICAL", "NA");
    ("NA_REAL", "NA") ].

(** The world after [path] was opened, truncated and given the
    content [text]. *)
Definition written (w : World) (path text : string) : World :=
  {| files := <[path := text]> (files w);
     unreadable := unreadable w; unwritable := unwritable w;
     directories := directories w;
     trace := trace w ++ [Truncated path; Wrote path text];
     Rcout := Rcout w; warnings := warnings w |}.

(** The world after [path] was removed. *)
Definition removed (w : World) (path : string) : World :=
  {| files := delete path (files w);
     unreadable := unreadable w; unwritable := unwritable w;
     directories := directories w;
     trace := trace w ++ [Removed path];
     Rcout := Rcout w; warnings := warnings w |}.

(** From [w] to [w'] the file system did not change: the files, the
    paths that cannot be opened, the directories and the trace are the
    same.  Printed text and warnings may differ. *)
Definition same_file_system (w w' : World) : Prop :=
  files w' = files w
  /\ unreadable w' = unreadable w /\ unwritable w' = unwritable w
  /\ directories w' = directories w /\ trace w' = trace w.

(** From [w] to [w'] no file outside [paths] changed, nor did the paths
    that cannot be opened, the printed text or the warnings. *)
Definition touches_only (paths : list string) (w w' : World) : Prop :=
  (forall path, path ∉ paths -> files w' !! path = files w !! path)
  /\ unreadable w' = unreadable w /\ unwritable w' = unwritable w
  /\ Rcout w' = Rcout w /\ warnings w' = warnings w.

(** The container types of the create pattern with their R constructors,
    and the tokens of the literal pattern. *)
Definition container_constructors : list (string * string) :=
  [ ("CharacterVector", "character"); ("IntegerVector", "integer");
    ("NumericVector", "numeric") ].

Definition literal_tokens : list string := ["TRUE"; "FALSE"; "NULL"; "NA"].

(** [w] with more warnings shown. *)
Definition add_warnings (w : World) (msgs : list string) : World :=
  {| files := files w; unreadable := unreadable w; unwritable := unwritable w;
     directories := directories w; trace := trace w;
     Rcout := Rcout w; warnings := warnings w ++ msgs |}.

Section Vocabulary.
Context `{Externals}.

(** Some source file of the batch requests the C++ interface. *)
Definition requests_cpp (sources : list SourceFileAttributes) : bool :=
  existsb (fun attrs => hasInterface attrs kInterfaceCpp) sources.

(** The first two lines of the content are the generator marker. *)
Definition carries_marker (commentPrefix content : string) : Prop :=
  exists rest, content = generatorMarker commentPrefix +:+ rest.

(** One parameter of the R argument list, and the warning it causes
    when its default value cannot be converted. *)
Definition rArg_text (argument : Argument) : string :=
  let rArg := cppArgToRArg (Type_name (arg_type argument))
                           (arg_defaultValue argument) in
  if negb (empty (arg_defaultValue argument)) && negb (empty rArg)
  then arg_name argument +:+ " = " +:+ rArg
  else arg_name argument.

Definition rArg_warnings (function : Function) (argument : Argument)
  : list string :=
  let rArg := cppArgToRArg (Type_name (arg_type argument))
                           (arg_defaultValue argument) in
  if negb (empty (arg_defaultValue argument)) && empty rArg
  then [unparsedWarning function argument]
  else [].

(** The functions of a source file that get a C++ interface: exported,
    and not hidden under their exported name. *)
Definition has_cpp_interface (attr : Attribute) : bool :=
  isExportedFunction attr
  && negb (Function_isHidden (renamedTo (function attr) (exportedName attr))).

(** The functions a batch of source files adds to the C++ exports, in
    order: those of the files that request the C++ interface. *)
Definition cpp_exports_of (sources : list SourceFileAttributes) : list Attribute :=
  flat_map (fun attrs =>
              if hasInterface attrs kInterfaceCpp
              then List.filter has_cpp_interface (attributes attrs)
              else [])
           sources.

(** The R wrapper of one attribute and the warnings of its parameter
    list; nothing for an attribute that is not an exported function. *)
Definition R_wrapper (package : string) (attribute : Attribute) : string :=
  if isExportedFunction attribute
  then RExportsGenerator_function_text package attribute
         (String.concat ", " (map rArg_text (fn_arguments (function attribute))))
  else EmptyString.

Definition R_wrapper_warnings (attribute : Attribute) : list string :=
  if isExportedFunction attribute
  then concat (map (rArg_warnings (function attribute))
                   (fn_arguments (function attribute)))
  else [].

(** The generators whose artifact exists only with a C++ interface. *)
Definition is_conditional (g : Generator) : bool :=
  match g with
  | CppInclude _ | CppPackage _ => true
  | _ => false
  end.

(** The preamble and the include directory the conditional
    generators commit with. *)
Definition preamble_of (g : Generator) (includes : list string) : string :=
  match g with
  | CppInclude g => CppExportsIncludeGenerator_preamble g includes
  | _ => EmptyString
  end.

Definition includeDir_of (g : Generator) : string :=
  match g with
  | CppInclude g => inc_includeDir_ g
  | CppPackage g => pkg_includeDir_ g
  | _ => EmptyString
  end.

(** [g'] is the generator [g] at a later time: the same kind of
    generator for the same target file, package and comment prefix, with
    the same existing content. *)
Definition same_generator (g g' : Generator) : Prop :=
  match g, g' with
  | Cpp _, Cpp _ | CppInclude _, CppInclude _
  | CppPackage _, CppPackage _ | R _, R _ => True
  | _, _ => False
  end
  /\ targetFile_ (base_of g') = targetFile_ (base_of g)
  /\ package_ (base_of g') = package_ (base_of g)
  /\ commentPrefix_ (base_of g') = commentPrefix_ (base_of g)
  /\ existingCode_ (base_of g') = existingCode_ (base_of g)
  /\ includeDir_of g' = includeDir_of g.
End Vocabulary.
End Spec.

(* ===================================================================== *)
(** * A sample environment                                                *)
(* ===================================================================== *)

(** One instance of the declarations the generators take as parameters,
    used to run them on concrete inputs: types are their names, a function
    prints as a C++ prototype, hidden functions start with a dot, numbers
    are scanned by [Text.scan_double]. *)
Module Sample.
Import Text Attributes.
Open Scope string_scope.

#[export] Instance types : TypeModel :=
  {| Type_ := string;
     Type_name := fun t => t;
     Type_isVoid := fun t => String.eqb t "void";
     Type_print := fun t => t |}.

Definition last_char (s : string) : option ascii :=
  String.get (String.length s - 1) s.

Definition quoted (str : string) : bool :=
  match str with
  | String quote (String _ _) =>
      (Ascii.eqb quote "'" || Ascii.eqb quote "034")
      && bool_decide (last_char str = Some quote)
  | _ => false
  end.

Definition print_function (f : Function) : string :=
  fn_type f +:+ " " +:+ fn_name f +:+ "("
    +:+ for_each (fun i a =>
                    arg_type a +:+ " " +:+ arg_name a
                    +:+ unless_last i (length (fn_arguments f)) ", ")
                 0 (fn_arguments f)
    +:+ ")".

Definition hidden (f : Function) : bool :=
  match fn_name f with String "." _ => true | _ => false end.

Definition signature_text (type name : string) (args : list string) : string :=
  type +:+ "(*" +:+ name +:+ ")("
    +:+ for_each (fun i t => t +:+ unless_last i (length args) ",") 0 args
    +:+ ")".

#[export] Instance externals : Externals :=
  {| generatorToken := "10BE3573-1514-4C36-9D1C-5A225CD40393";
     isQuoted := quoted;
     extractDouble := scan_double;
     Function_print := print_function;
     Function_isHidden := hidden;
     signatureText := signature_text;
     exportValidationFunction := "RcppExport_validate";
     exportValidationFunctionRegisteredName :=
       fun package => package +:+ "_" +:+ "RcppExport_validate";
     registerCCallableExportedName :=
       fun package => package +:+ "_RcppExport_registerCCallable" |}.

(** An empty file system in which every path can be opened. *)
Definition empty_world : World :=
  {| files := ∅; unreadable := ∅; unwritable := ∅; directories := ∅;
     trace := []; Rcout := EmptyString; warnings := [] |}.

(** [double add(int x = 1, double y = 2.5)], exported as [add] from a
    source file that requests both interfaces. *)
Definition add : Function :=
  {| fn_type := "double"; fn_name := "add";
     fn_arguments :=
       [ {| arg_name := "x"; arg_type := "int"; arg_defaultValue := "1" |};
         {| arg_name := "y"; arg_type := "double"; arg_defaultValue := "2.5" |} ] |}.

Definition add_export : Attribute :=
  {| isExportedFunction := true; function := add;
     exportedName := "add"; roxygen := [] |}.

Definition add_cpp : SourceFileAttributes :=
  {| sourceFile := "add.cpp"; attributes := [add_export];
     hasInterface := fun _ => true |}.

(** The same function in a source file that requests the R interface
    only. *)
Definition add_r : SourceFileAttributes :=
  {| sourceFile := "add.cpp"; attributes := [add_export];
     hasInterface := fun i => match i with kInterfaceR => true | kInterfaceCpp => false end |}.

(** [void plot(int a = 1, int b = foo(bar(1)), double c = 2.5)] *)
Definition plot_a : Argument :=
  {| arg_name := "a"; arg_type := "int"; arg_defaultValue := "1" |}.
Definition plot_b : Argument :=
  {| arg_name := "b"; arg_type := "int"; arg_defaultValue := "foo(bar(1))" |}.
Definition plot_c : Argument :=
  {| arg_name := "c"; arg_type := "double"; arg_defaultValue := "2.5" |}.
Definition plot : Function :=
  {| fn_type := "void"; fn_name := "plot";
     fn_arguments := [plot_a; plot_b; plot_c] |}.

(** Generators of package [pkg] as their constructors leave them when
    no target file exists. *)
Definition fresh (targetFile commentPrefix : string) : ExportsGenerator :=
  {| targetFile_ := targetFile; package_ := "pkg";
     commentPrefix_ := commentPrefix; existingCode_ := EmptyString;
     codeStream_ := EmptyString; hasCppInterface_ := false |}.

Definition fresh_RExportsGenerator : RExportsGenerator :=
  {| r_base := fresh "/pkg/R/RcppExports.R" "#" |}.

Definition fresh_CppExportsGenerator : CppExportsGenerator :=
  {| cpp_base := fresh "/pkg/src/RcppExports.cpp" "//"; cppExports_ := [] |}.

Definition fresh_CppExportsIncludeGenerator : CppExportsIncludeGenerator :=
  {| inc_base := fresh "/pkg/inst/include/pkg_RcppExports.h" "//";
     inc_includeDir_ := "/pkg/inst/include" |}.

Definition fresh_CppPackageIncludeGenerator : CppPackageIncludeGenerator :=
  {| pkg_base := fresh "/pkg/inst/include/pkg.h" "//";
     pkg_includeDir_ := "/pkg/inst/include" |}.

(** An R wrapper generator with one line of generated code. *)
Definition pending : ExportsGenerator :=
  ostr (fresh "/pkg/R/RcppExports.R" "#") ("f <- function() NULL" +:+ nl).

(** A world in which the R wrapper file cannot be opened for writing. *)
Definition read_only_world : World :=
  {| files := ∅; unreadable := ∅; unwritable := {["/pkg/R/RcppExports.R"]};
     directories := ∅; trace := []; Rcout := EmptyString; warnings := [] |}.

(** A world whose R wrapper file was generated earlier and cannot be
    opened for reading. *)
Definition unreadable_world : World :=
  {| files := {["/pkg/R/RcppExports.R" := generatorMarker "#" +:+ nl]};
     unreadable := {["/pkg/R/RcppExports.R"]}; unwritable := ∅;
     directories := ∅; trace := []; Rcout := EmptyString; warnings := [] |}.

End Sample.


(* ===================================================================== *)
(** * Sugar: properties                                                   *)
(* ===================================================================== *)

Import Sugar.

Section SugarProperties.
Context {STORAGE : Type} `{Storage STORAGE}.

(** C9.  For the vector-minus-vector expression with both operands
    NA-capable, the element at every index is the left element when the
    left element is NA, else the right element when the right element is
    NA, else their difference; and the size of the expression is the
    size of the left operand, whatever the right operand is. *)
Theorem Minus_Vector_Vector_elementwise
    {LHS_T RHS_T : Type} `{VectorBase STORAGE LHS_T} `{VectorBase STORAGE RHS_T}
    (lhs : LHS_T) (rhs : RHS_T) (i : Z) :
  let e := Build_Minus_Vector_Vector true true lhs rhs in
  at_ e i =
    (if is_na (at_ lhs i) then at_ lhs i
     else if is_na (at_ rhs i) then at_ rhs i
     else minus (at_ lhs i) (at_ rhs i))
  /\ size e = size lhs
  /\ forall rhs' : RHS_T,
       size (Build_Minus_Vector_Vector true true lhs rhs') = size e.
Proof.
  cbn. unfold Minus_Vector_Vector_at, Minus_Vector_Vector_size. cbn.
  repeat split.
Qed.

(** C10.  For the scalar-minus-vector expression, when the scalar is NA
    the element at every index is that scalar, whatever the vector
    holds; when the scalar is not NA the element is the plain difference
    of the scalar and the vector element, with no NA test on the vector
    element. *)
Theorem Minus_Primitive_Vector_elementwise
    {T : Type} `{VectorBase STORAGE T} (NA : bool) (lhs : STORAGE) (rhs : T) (i : Z) :
  let e := Minus_Primitive_Vector_new NA lhs rhs in
  at_ e i = (if is_na lhs then lhs else minus lhs (at_ rhs i))
  /\ size e = size rhs.
Proof.
  cbn. unfold Minus_Primitive_Vector_at, Minus_Primitive_Vector_size. cbn.
  split; reflexivity.
Qed.
End SugarProperties.

(** On integers: NA on either side of a vector difference is kept, but a
    scalar minus an NA element is computed like any other difference. *)
Example Minus_Vector_Vector_integers :
  let e := Build_Minus_Vector_Vector true true
             {| iv_data := [5; NA_INTEGER; 7; 9] |}
             {| iv_data := [1; 2; NA_INTEGER] |} in
  map (at_ e) [0; 1; 2] = [4; NA_INTEGER; NA_INTEGER]
  /\ size e = 4.
Proof. split; reflexivity. Qed.

Example Minus_Primitive_Vector_integers :
  let v := {| iv_data := [1; NA_INTEGER] |} in
  map (at_ (Minus_Primitive_Vector_new true 5 v)) [0; 1] = [4; -2147483643]
  /\ is_na (-2147483643) = false
  /\ map (at_ (Minus_Primitive_Vector_new true NA_INTEGER v)) [0; 1]
     = [NA_INTEGER; NA_INTEGER].
Proof. repeat split; reflexivity. Qed.

(* ===================================================================== *)
(** * Text: properties                                                    *)
(* ===================================================================== *)

Section TextProperties.
Import Text Spec.
Open Scope string_scope.

Lemma app_nil_r (s : string) : s +:+ EmptyString = s.
Proof. induction s as [|c s IH]; [reflexivity|]. change (String c (s +:+ "") = String c s). by rewrite IH. Qed.

Lemma app_assoc (a b c : string) : (a +:+ b) +:+ c = a +:+ (b +:+ c).
Proof.
  induction a as [|x a IH]; [reflexivity|].
  change (String x ((a +:+ b) +:+ c) = String x (a +:+ (b +:+ c))).
  by rewrite IH.
Qed.

Lemma app_cons (x : ascii) (a b : string) : String x a +:+ b = String x (a +:+ b).
Proof. reflexivity. Qed.

Lemma empty_true (s : string) : empty s = true <-> s = EmptyString.
Proof. destruct s; split; intros; done. Qed.

Lemma empty_false (s : string) : empty s = false <-> s <> EmptyString.
Proof. destruct s; split; intros; done. Qed.

Lemma skipws_blanks (blanks s : string) :
  all_space blanks = true -> skipws (blanks +:+ s) = skipws s.
Proof.
  induction blanks as [|c blanks IH]; [done|].
  cbn [all_space]. intros [Hc Hb]%andb_prop.
  rewrite app_cons. cbn [skipws]. rewrite Hc. auto.
Qed.

Lemma skipws_split (s : string) :
  exists blanks, all_space blanks = true /\ s = blanks +:+ skipws s.
Proof.
  induction s as [|c s (blanks & Hb & Hs)].
  - by exists EmptyString.
  - cbn [skipws]. destruct (isspace c) eqn:Hc.
    + exists (String c blanks). split; [cbn; by rewrite Hc|].
      rewrite app_cons. by rewrite <- Hs.
    + by exists EmptyString.
Qed.

Lemma read_word_app (s w rest : string) :
  read_word s = (w, rest) -> s = w +:+ rest.
Proof.
  revert w rest. induction s as [|c s IH]; intros w rest; cbn [read_word].
  - by intros [= <- <-].
  - destruct (isspace c); [by intros [= <- <-]|].
    destruct (read_word s) as [w' rest'] eqn:Hr. intros [= <- <-].
    rewrite app_cons. f_equal. by apply IH.
Qed.

(** The test [argStream.eof() && suffix == "L"] after [argStream >> suffix]
    holds exactly when the unread text is the suffix [L]. *)
Lemma extract_word_L (unread : string) :
  (snd (extract_word unread) && String.eqb (fst (extract_word unread)) "L" = true)
  <-> is_L_suffix unread.
Proof.
  unfold extract_word, is_L_suffix. split.
  - destruct (skipws_split unread) as (blanks & Hb & Hs).
    destruct (skipws unread) as [|c s'] eqn:Hskip; [done|].
    destruct (read_word (String c s')) as [w rest] eqn:Hr. cbn [fst snd].
    intros [Heof Hw]%andb_prop.
    apply empty_true in Heof. apply String.eqb_eq in Hw. subst.
    apply read_word_app in Hr. rewrite app_nil_r in Hr.
    exists blanks. split; [done|]. by rewrite <- Hr.
  - intros (blanks & Hb & ->). by rewrite skipws_blanks.
Qed.

Lemma not_L_suffix_empty : ~ is_L_suffix EmptyString.
Proof. intros (blanks & _ & Hs). by destruct blanks. Qed.
End TextProperties.

(* ===================================================================== *)
(** * Converting default arguments: properties                            *)
(* ===================================================================== *)

Section DefaultArguments.
Import Text Attributes Spec.
Open Scope string_scope.
Context `{Externals}.

(** C4.  For a default value from which a number can be extracted: when
    what follows the number is the integer literal suffix L the text is
    returned unchanged; otherwise, when the text has no decimal point and
    the declared type is neither exactly double nor exactly float, the
    text with L appended is returned; otherwise the text is returned
    unchanged.  A text from which no number can be extracted yields the
    empty string. *)
Theorem cppNumericArgToRArg_cases (type cppArg : string) :
  match extractDouble cppArg with
  | Some unread =>
      (is_L_suffix unread -> cppNumericArgToRArg type cppArg = cppArg)
      /\ (~ is_L_suffix unread ->
          contains_char "." cppArg = false ->
          type <> "double" -> type <> "float" ->
          cppNumericArgToRArg type cppArg = cppArg +:+ "L")
      /\ (~ is_L_suffix unread ->
          contains_char "." cppArg = true \/ type = "double" \/ type = "float" ->
          cppNumericArgToRArg type cppArg = cppArg)
  | None => cppNumericArgToRArg type cppArg = EmptyString
  end.
Proof.
  unfold cppNumericArgToRArg.
  destruct (extractDouble cppArg) as [unread|]; [|reflexivity].
  pose proof (extract_word_L unread) as HL.
  destruct (extract_word unread) as [suffix eof]. cbn [fst snd] in HL.
  destruct (empty unread) eqn:Hempty; cbn [negb].
  - apply empty_true in Hempty. subst unread.
    split; [intros HS; by destruct not_L_suffix_empty|].
    split.
    + intros _ -> Hd Hf. apply String.eqb_neq in Hd, Hf. by rewrite Hd, Hf.
    + intros _ [-> | [-> | ->]]; [done| |].
      * by rewrite andb_false_r.
      * by rewrite andb_false_r.
  - destruct (eof && String.eqb suffix "L") eqn:Htest.
    + split; [done|]. split; intros HS; destruct HS; by apply HL.
    + assert (~ is_L_suffix unread) as Hno
        by (intros HS; apply HL in HS; congruence).
      split; [intros HS; by destruct Hno|].
      split.
      * intros _ -> Hd Hf. apply String.eqb_neq in Hd, Hf. by rewrite Hd, Hf.
      * intros _ [-> | [-> | ->]]; [done| |]; by rewrite andb_false_r.
Qed.

(** C8.  The literal translator maps true to TRUE, false to FALSE,
    R_NilValue to NULL and each of NA_STRING, NA_INTEGER, NA_LOGICAL and
    NA_REAL to NA, and so does the whole translator on these keywords
    when they are not taken for quoted strings; a default value that is
    a quoted string is returned unchanged, whatever the later patterns
    would make of it. *)
Theorem literal_and_quoted_translation :
  (forall keyword token,
      In (keyword, token) literal_keywords ->
      cppLiteralArgToRArg keyword = token
      /\ forall type, isQuoted keyword = false -> cppArgToRArg type keyword = token)
  /\ (forall type cppArg,
         isQuoted cppArg = true -> cppArgToRArg type cppArg = cppArg).
Proof.
  split.
  - intros keyword token Hin. unfold cppArgToRArg.
    repeat (destruct Hin as [[= <- <-] | Hin]; [split; [reflexivity|]; by intros type -> |]).
    destruct Hin.
  - intros type cppArg Hq. unfold cppArgToRArg. by rewrite Hq.
Qed.

(** A text is a keyword of the literal translator exactly when the
    literal translator has a token for it. *)
Lemma cppLiteralArgToRArg_empty (cppArg : string) :
  cppLiteralArgToRArg cppArg = EmptyString
  <-> ~ In cppArg (map fst literal_keywords).
Proof.
  unfold cppLiteralArgToRArg. cbn [map fst literal_keywords In].
  repeat match goal with
         | |- context [String.eqb ?a ?b] =>
             destruct (String.eqb_spec a b); cbn [orb]
         end; split; intros; try done; intuition congruence.
Qed.

(** The translator tries its five patterns in order and returns what
    the first matching one returns. *)
Lemma cppArgToRArg_first_match (type cppArg : string) :
  cppArgToRArg type cppArg =
    if isQuoted cppArg then cppArg
    else if negb (empty (cppLiteralArgToRArg cppArg)) then cppLiteralArgToRArg cppArg
    else if negb (empty (cppCreateArgToRArg cppArg)) then cppCreateArgToRArg cppArg
    else if negb (empty (cppMatrixArgToRArg cppArg)) then cppMatrixArgToRArg cppArg
    else cppNumericArgToRArg type cppArg.
Proof.
  unfold cppArgToRArg.
  repeat match goal with |- context [if ?b then _ else _] => destruct b eqn:? end;
    try reflexivity.
  symmetry. by apply empty_true, negb_false_iff.
Qed.

(** When none of the five patterns matches, the translation is empty. *)
Lemma cppArgToRArg_no_match (type cppArg : string) :
  isQuoted cppArg = false ->
  cppLiteralArgToRArg cppArg = EmptyString ->
  cppCreateArgToRArg cppArg = EmptyString ->
  cppMatrixArgToRArg cppArg = EmptyString ->
  cppNumericArgToRArg type cppArg = EmptyString ->
  cppArgToRArg type cppArg = EmptyString.
Proof. intros Hq Hl Hc Hm Hn. rewrite cppArgToRArg_first_match, Hq, Hl, Hc, Hm. exact Hn. Qed.
End DefaultArguments.

(* ===================================================================== *)
(** * The effect monad: properties                                        *)
(* ===================================================================== *)

Section Effects.
Import Attributes Spec.

Lemma bind_returns {A B : Type} (m : IO A) (k : A -> IO B) (w w' : World) (a : A) :
  m w = (Returns a, w') -> (m ≫= k) w = k a w'.
Proof. intros Hm. unfold mbind, IO_bind. by rewrite Hm. Qed.

Lemma bind_throws {A B : Type} (m : IO A) (k : A -> IO B) (w w' : World) (e : exception) :
  m w = (Throws e, w') -> (m ≫= k) w = (Throws e, w').
Proof. intros Hm. unfold mbind, IO_bind. by rewrite Hm. Qed.

Lemma add_warnings_nil (w : World) : add_warnings w [] = w.
Proof. destruct w. unfold add_warnings. cbn. by rewrite List.app_nil_r. Qed.

Lemma add_warnings_app (w : World) (a b : list string) :
  add_warnings (add_warnings w a) b = add_warnings w (a ++ b).
Proof. unfold add_warnings. cbn. by rewrite List.app_assoc. Qed.

Lemma showWarning_run (msg : string) (w : World) :
  showWarning msg w = (Returns (), add_warnings w [msg]).
Proof. reflexivity. Qed.
End Effects.

(* ===================================================================== *)
(** * The R argument list: properties                                     *)
(* ===================================================================== *)

Section ArgumentList.
Import Text Attributes Spec.
Open Scope string_scope.
Context `{Externals}.

Lemma generateRArgList_from_concat (function : Function) (arguments : list Argument) :
  forall (size i : nat) (argsOstr : string) (w : World),
    size = (i + length arguments)%nat ->
    generateRArgList_from function size i arguments argsOstr w =
      (Returns (argsOstr +:+ String.concat ", " (map rArg_text arguments)),
       add_warnings w (concat (map (rArg_warnings function) arguments))).
Proof.
  induction arguments as [|argument arguments IH]; intros size i argsOstr w Hsize.
  - cbn. by rewrite app_nil_r, add_warnings_nil.
  - cbn [generateRArgList_from map concat].
    set (step := if negb (empty (arg_defaultValue argument)) then _ else _).
    assert (step w = (Returns (argsOstr +:+ rArg_text argument),
                      add_warnings w (rArg_warnings function argument))) as Hstep.
    { unfold step, rArg_text, rArg_warnings.
      destruct (empty (arg_defaultValue argument)); cbn [negb andb].
      - by rewrite add_warnings_nil.
      - destruct (empty (cppArgToRArg _ _)); cbn [negb].
        + reflexivity.
        + by rewrite add_warnings_nil, app_assoc. }
    rewrite (bind_returns _ _ _ _ _ Hstep).
    rewrite IH by (cbn in Hsize; lia).
    rewrite add_warnings_app. f_equal. f_equal.
    destruct arguments as [|next arguments]; cbn in Hsize.
    + replace (size - 1)%nat with i by lia. rewrite Nat.eqb_refl. cbn.
      by rewrite !app_nil_r.
    + assert (Nat.eqb i (size - 1) = false) as ->
        by (apply Nat.eqb_neq; lia).
      cbn [negb map String.concat]. by rewrite !app_assoc.
Qed.

(** The argument list is the parameters joined by commas, and the
    warnings are those of the parameters in order. *)
Lemma generateRArgList_concat (function : Function) (w : World) :
  generateRArgList function w =
    (Returns (String.concat ", " (map rArg_text (fn_arguments function))),
     add_warnings w (concat (map (rArg_warnings function) (fn_arguments function)))).
Proof. unfold generateRArgList. by rewrite generateRArgList_from_concat. Qed.

(** C5.  When none of the five patterns matches a default value, the
    translator returns the empty string; the argument list generator
    then shows the warning that names the default value, the argument
    and the function, writes that parameter by its name alone, and
    writes the parameters before and after it as usual. *)
Theorem unparsed_default_degrades
    (function : Function) (before after : list Argument) (argument : Argument)
    (w : World) :
  fn_arguments function = (before ++ argument :: after)%list ->
  arg_defaultValue argument <> EmptyString ->
  isQuoted (arg_defaultValue argument) = false ->
  cppLiteralArgToRArg (arg_defaultValue argument) = EmptyString ->
  cppCreateArgToRArg (arg_defaultValue argument) = EmptyString ->
  cppMatrixArgToRArg (arg_defaultValue argument) = EmptyString ->
  cppNumericArgToRArg (Type_name (arg_type argument)) (arg_defaultValue argument)
    = EmptyString ->
  cppArgToRArg (Type_name (arg_type argument)) (arg_defaultValue argument)
    = EmptyString
  /\ generateRArgList function w =
       (Returns (String.concat ", "
                   (map rArg_text before ++ [arg_name argument]
                      ++ map rArg_text after)%list),
        add_warnings w
          (concat (map (rArg_warnings function) before)
             ++ ["Unable to parse C++ default value '" +:+ arg_defaultValue argument
                   +:+ "' for argument " +:+ arg_name argument
                   +:+ " of function " +:+ fn_name function]
             ++ concat (map (rArg_warnings function) after))%list).
Proof.
  intros Hargs Hvalue Hq Hl Hc Hm Hn.
  pose proof (cppArgToRArg_no_match _ _ Hq Hl Hc Hm Hn) as Hempty.
  split; [exact Hempty|].
  rewrite generateRArgList_concat, Hargs.
  rewrite !map_app, concat_app. cbn [map concat].
  apply empty_false in Hvalue.
  unfold rArg_text at 2, rArg_warnings at 2.
  rewrite Hempty, Hvalue. cbn [negb andb empty List.app].
  reflexivity.
Qed.
End ArgumentList.

(* ===================================================================== *)
(** * The R wrapper generator: properties                                 *)
(* ===================================================================== *)

Section RWrapper.
Import Text Attributes Spec.
Open Scope string_scope.
Context `{Externals}.

(** C7, as the generator writes it.  For a single exported function
    add(x = 1, y = 2.5) of package pkg whose return type is not void and
    whose first argument is not declared double or float, in a source
    file requesting both interfaces, the R wrapper written is
    add <- function(x = 1L, y = 2.5) with the body
    .Call('pkg_add', PACKAGE = 'pkg', x, y): the call names the adapter
    key, then the package, then exactly the arguments x and y.  No
    warning is shown and the file system is left alone. *)
Theorem add_wrapper_text
    (tret tx ty : Type_) (g : RExportsGenerator) (attrs : SourceFileAttributes)
    (verbose : bool) (w : World) :
  package_ (r_base g) = "pkg" ->
  hasInterface attrs kInterfaceR = true ->
  hasInterface attrs kInterfaceCpp = true ->
  attributes attrs =
    [ {| isExportedFunction := true;
         function :=
           {| fn_type := tret; fn_name := "add";
              fn_arguments :=
                [ {| arg_name := "x"; arg_type := tx; arg_defaultValue := "1" |};
                  {| arg_name := "y"; arg_type := ty; arg_defaultValue := "2.5" |} ] |};
         exportedName := "add"; roxygen := [] |} ] ->
  Type_isVoid tret = false ->
  Type_name tx <> "double" -> Type_name tx <> "float" ->
  isQuoted "1" = false -> isQuoted "2.5" = false ->
  extractDouble "1" = Some EmptyString ->
  extractDouble "2.5" = Some EmptyString ->
  writeFunctions (R g) attrs verbose w =
    (Returns
       (R {| r_base :=
               ostr (set_hasCppInterface (r_base g) true)
                 ("add <- function(x = 1L, y = 2.5) {" +:+ nl
                  +:+ "    .Call('pkg_add', PACKAGE = 'pkg', x, y)" +:+ nl
                  +:+ "}" +:+ nl +:+ nl) |}),
     w).
Proof.
  intros Hpkg HR HCpp Hattrs Hvoid Hdouble Hfloat Hq1 Hq2 Hn1 Hn2.
  apply String.eqb_neq in Hdouble, Hfloat.
  unfold writeFunctions, ExportsGenerator_writeFunctions.
  rewrite HCpp. unfold RExportsGenerator_doWriteFunctions.
  rewrite HR, Hattrs. cbn [r_base]. cbn [RExportsGenerator_each isExportedFunction negb].
  assert (forall t, cppArgToRArg t "1" =
                    if String.eqb t "double" || String.eqb t "float" then "1" else "1L")
    as Harg1.
  { intros t. unfold cppArgToRArg, cppNumericArgToRArg. rewrite Hq1, Hn1. cbn.
    by destruct (String.eqb t "double"), (String.eqb t "float"). }
  assert (forall t, cppArgToRArg t "2.5" = "2.5") as Harg2.
  { intros t. unfold cppArgToRArg, cppNumericArgToRArg. by rewrite Hq2, Hn2. }
  unfold mbind, IO_bind, mret, IO_ret. rewrite generateRArgList_concat.
  cbn [function fn_arguments map rArg_text rArg_warnings arg_defaultValue arg_type
       arg_name concat RExportsGenerator_each].
  unfold rArg_text, rArg_warnings. cbn [arg_defaultValue arg_type arg_name].
  rewrite Harg1, Harg2, Hdouble, Hfloat. cbn [orb empty negb andb List.app].
  rewrite add_warnings_nil.
  unfold RExportsGenerator_function_text.
  cbn [function fn_type fn_name fn_arguments exportedName roxygen for_each arg_name
       package_ set_hasCppInterface].
  rewrite Hvoid, Hpkg. reflexivity.
Qed.
End RWrapper.

Section RWrapperSample.
Import Text Attributes Spec Sample.
Open Scope string_scope.

(** The sample environment fits the assumptions of [add_wrapper_text]. *)
Lemma add_wrapper_text_witness :
  writeFunctions (R fresh_RExportsGenerator) add_cpp false empty_world
  = (Returns
       (R {| r_base :=
               ostr (set_hasCppInterface (r_base fresh_RExportsGenerator) true)
                 ("add <- function(x = 1L, y = 2.5) {" +:+ nl
                  +:+ "    .Call('pkg_add', PACKAGE = 'pkg', x, y)" +:+ nl
                  +:+ "}" +:+ nl +:+ nl) |}),
     empty_world).
Proof.
  apply (@add_wrapper_text Sample.types Sample.externals
           "double"%string "int"%string "double"%string);
    solve [reflexivity | discriminate].
Defined.

(** C7, as the specification words it, does not hold: the call written
    is not .Call('pkg_add', x, y); the adapter key is followed by the
    package before the arguments. *)
Lemma add_wrapper_call_names_PACKAGE :
  match fst (writeFunctions (R fresh_RExportsGenerator) add_cpp false empty_world) with
  | Returns g' =>
      let code := codeStream_ (base_of g') in
      find code ".Call('pkg_add', x, y)" = None
      /\ find code ".Call('pkg_add', PACKAGE = 'pkg', x, y)" = Some 39%nat
      /\ code <> "add <- function(x = 1L, y = 2.5) {" +:+ nl
                   +:+ "    .Call('pkg_add', x, y)" +:+ nl
                   +:+ "}" +:+ nl +:+ nl
  | Throws _ => False
  end.
Proof. vm_compute. repeat split; discriminate. Qed.
End RWrapperSample.

Section ArgumentListSample.
Import Text Attributes Spec Sample.
Open Scope string_scope.

(** [plot] has a default value, foo(bar(1)), that no pattern matches. *)
Lemma unparsed_default_degrades_witness :
  cppArgToRArg "int" "foo(bar(1))" = EmptyString
  /\ generateRArgList plot empty_world =
       (Returns "a = 1L, b, c = 2.5",
        add_warnings empty_world
          ["Unable to parse C++ default value 'foo(bar(1))' for argument b of function plot"]).
Proof.
  apply (@unparsed_default_degrades Sample.types Sample.externals
           plot [plot_a] [plot_c] plot_b empty_world);
    solve [reflexivity | discriminate].
Defined.
End ArgumentListSample.

(* ===================================================================== *)
(** * The generator base class: properties                                *)
(* ===================================================================== *)

Section BaseClass.
Import Text Attributes Spec.
Open Scope string_scope.
Context `{Externals}.

Lemma prefix_app (a b : string) :
  String.prefix a b = true <-> exists rest, b = a +:+ rest.
Proof.
  revert b. induction a as [|x a IH]; intros [|y b]; cbn [String.prefix].
  - split; [intros _; by exists EmptyString | done].
  - split; [intros _; exists (String y b); reflexivity | done].
  - split; [done | by intros [rest ?]].
  - destruct (ascii_dec x y) as [<- | Hne].
    + rewrite IH. split; intros [rest Hrest]; exists rest.
      * by rewrite app_cons, <- Hrest.
      * rewrite app_cons in Hrest. by injection Hrest.
    + split; [done|]. intros [rest Hrest]. rewrite app_cons in Hrest.
      injection Hrest as ? ?. by destruct Hne.
Qed.

Lemma written_neq (w : World) (path text : string) : written w path text <> w.
Proof.
  intros Heq. apply (f_equal trace) in Heq. cbn in Heq.
  apply (f_equal length) in Heq. rewrite length_app in Heq. cbn in Heq. lia.
Qed.

(** What [commit] does, case by case. *)
Lemma ExportsGenerator_commit_run (g : ExportsGenerator) (preamble : string) (w : World) :
  ExportsGenerator_commit g preamble w =
    if empty (codeStream_ g) && negb (bool_decide (is_Some (files w !! targetFile_ g)))
    then (Returns false, w)
    else if String.eqb (generatedCode g preamble) (existingCode_ g)
    then (Returns false, w)
    else if bool_decide (targetFile_ g ∈ unwritable w)
    then (Throws (file_io_error (targetFile_ g)), w)
    else (Returns true, written w (targetFile_ g) (generatedCode g preamble)).
Proof.
  unfold ExportsGenerator_commit, generatedCode, mbind, IO_bind, FileInfo_exists.
  destruct (empty (codeStream_ g) && negb _); [reflexivity|].
  destruct (String.eqb _ _); cbn [negb]; [reflexivity|].
  unfold ofstream_open. destruct (bool_decide (_ ∈ _)); cbn [negb]; [reflexivity|].
  unfold ofstream_put, with_files, written, mret, IO_ret. cbn.
  rewrite lookup_insert_eq, insert_insert_eq, <- List.app_assoc. reflexivity.
Qed.

(** One case of [commit]: every part of the statement follows from
    the facts at hand. *)
Ltac settle_commit_case :=
  cbn [fst snd]; repeat split; intros;
  repeat match goal with
         | H : _ /\ _ |- _ => destruct H
         | H : _ \/ _ |- _ => destruct H
         end;
  first [ congruence | tauto | by left | by right ].

(** C1, as the code has it.  [commit] writes the target file exactly
    when three things hold: it is not the case that the buffer is empty
    and the target file is absent; the generated content (marker header,
    preamble, buffer) differs from the existing content read at
    construction; and the target file can be opened for writing.  It
    returns true exactly when it wrote, and otherwise leaves the world
    as it was.  It throws an I/O error exactly when the first two hold
    and the file cannot be opened, and returns false exactly when one of
    the first two fails; so with an empty buffer and no target file it
    writes nothing and returns false. *)
Theorem commit_writes_iff (g : ExportsGenerator) (preamble : string) (w : World) :
  let target := targetFile_ g in
  let generated := generatedCode g preamble in
  let nothing_to_do := codeStream_ g = EmptyString /\ files w !! target = None in
  let result := fst (ExportsGenerator_commit g preamble w) in
  let w' := snd (ExportsGenerator_commit g preamble w) in
  (w' = written w target generated
   <-> ~ nothing_to_do /\ generated <> existingCode_ g /\ target ∉ unwritable w)
  /\ (result = Returns true <-> w' = written w target generated)
  /\ (w' = written w target generated \/ w' = w)
  /\ (result = Throws (file_io_error target)
      <-> ~ nothing_to_do /\ generated <> existingCode_ g /\ target ∈ unwritable w)
  /\ (result = Returns false <-> nothing_to_do \/ generated = existingCode_ g)
  /\ (nothing_to_do -> result = Returns false /\ w' = w).
Proof.
  cbn zeta. rewrite ExportsGenerator_commit_run.
  pose proof (written_neq w (targetFile_ g) (generatedCode g preamble)) as Hneq.
  assert (empty (codeStream_ g)
            && negb (bool_decide (is_Some (files w !! targetFile_ g))) = true
          <-> codeStream_ g = EmptyString /\ files w !! targetFile_ g = None) as Hskip.
  { rewrite andb_true_iff, empty_true, negb_true_iff, bool_decide_eq_false.
    by rewrite <- eq_None_not_Some. }
  destruct (empty (codeStream_ g) && negb _).
  { assert (codeStream_ g = EmptyString /\ files w !! targetFile_ g = None)
      by by apply Hskip.
    settle_commit_case. }
  assert (~ (codeStream_ g = EmptyString /\ files w !! targetFile_ g = None))
    by (intros Hn; by apply Hskip in Hn).
  destruct (String.eqb_spec (generatedCode g preamble) (existingCode_ g)).
  { settle_commit_case. }
  case_bool_decide; settle_commit_case.
Qed.

(** What the constructor does, case by case. *)
Lemma ExportsGenerator_new_run (targetFile package commentPrefix : string) (w : World) :
  let generator existing :=
    {| targetFile_ := targetFile; package_ := package;
       commentPrefix_ := commentPrefix; existingCode_ := existing;
       codeStream_ := EmptyString; hasCppInterface_ := false |} in
  ExportsGenerator_new targetFile package commentPrefix w =
    match files w !! targetFile with
    | None => (Returns (generator EmptyString), w)
    | Some content =>
        if bool_decide (targetFile ∈ unreadable w)
        then (Throws (file_io_error targetFile), w)
        else if String.prefix (generatorMarker commentPrefix) content
        then (Returns (generator content), w)
        else (Throws (file_exists targetFile), w)
    end.
Proof.
  cbn zeta.
  unfold ExportsGenerator_new, isSafeToOverwrite, mbind, IO_bind, mret, IO_ret,
    throw, FileInfo_exists, ifstream_read.
  cbn [targetFile_ existingCode_ commentPrefix_].
  destruct (files w !! targetFile) as [content|] eqn:Hfile.
  - rewrite bool_decide_true by eauto.
    case_bool_decide as Hlocked; cbn beta iota; [reflexivity|].
    rewrite Hfile. cbn beta iota. rewrite Hfile, bool_decide_true by eauto.
    by destruct (String.prefix (generatorMarker commentPrefix) content).
  - rewrite bool_decide_false by (intros [? ?]; done).
    cbn beta iota. rewrite Hfile, bool_decide_false by (intros [? ?]; done).
    reflexivity.
Qed.

(** C3, as the code has it.  Construction never changes the world.
    When no target file exists it succeeds with empty existing content.
    When the target file exists and cannot be opened for reading it
    fails with an I/O error.  When the file exists and can be read,
    construction fails with a file-already-exists error if its first
    lines are not the generator marker, and otherwise succeeds and
    records the content of the file. *)
Theorem ExportsGenerator_new_cases (targetFile package commentPrefix : string)
    (w : World) :
  let made := ExportsGenerator_new targetFile package commentPrefix w in
  let generator existing :=
    {| targetFile_ := targetFile; package_ := package;
       commentPrefix_ := commentPrefix; existingCode_ := existing;
       codeStream_ := EmptyString; hasCppInterface_ := false |} in
  snd made = w
  /\ match files w !! targetFile with
     | None => fst made = Returns (generator EmptyString)
     | Some content =>
         (targetFile ∈ unreadable w ->
          fst made = Throws (file_io_error targetFile))
         /\ (targetFile ∉ unreadable w ->
             ~ carries_marker commentPrefix content ->
             fst made = Throws (file_exists targetFile))
         /\ (targetFile ∉ unreadable w ->
             carries_marker commentPrefix content ->
             fst made = Returns (generator content))
     end.
Proof.
  cbn zeta. rewrite ExportsGenerator_new_run. cbn zeta.
  destruct (files w !! targetFile) as [content|]; [|by split].
  case_bool_decide as Hlocked; [by repeat split|].
  pose proof (prefix_app (generatorMarker commentPrefix) content) as Hprefix.
  fold (carries_marker commentPrefix content) in Hprefix.
  destruct (String.prefix (generatorMarker commentPrefix) content);
    cbn [fst snd]; (split; [done|]); (split; [done|]);
    split; intros _ Hmarker.
  - destruct Hmarker. by apply Hprefix.
  - reflexivity.
  - reflexivity.
  - apply Hprefix in Hmarker. discriminate.
Qed.
End BaseClass.

Section BaseClassSample.
Import Text Attributes Spec Sample.
Open Scope string_scope.

(** C1, as the specification words it, does not hold: here the generated
    content differs from the existing content and yet [commit] writes
    nothing.  With a target file that cannot be opened for writing it
    throws an I/O error; with an empty buffer and no target file it
    returns false although the header alone differs from the empty
    existing content. *)
Lemma commit_differs_without_writing :
  (generatedCode pending EmptyString <> existingCode_ pending
   /\ ExportsGenerator_commit pending EmptyString read_only_world
      = (Throws (file_io_error "/pkg/R/RcppExports.R"), read_only_world))
  /\ (generatedCode (r_base fresh_RExportsGenerator) EmptyString
        <> existingCode_ (r_base fresh_RExportsGenerator)
      /\ ExportsGenerator_commit (r_base fresh_RExportsGenerator) EmptyString empty_world
         = (Returns false, empty_world)).
Proof. repeat split; solve [discriminate | reflexivity]. Qed.

(** C3, as the specification words it, does not hold: the existing file
    carries the marker on its first lines and yet construction fails,
    the file being unreadable. *)
Lemma marked_but_unreadable :
  files unreadable_world !! "/pkg/R/RcppExports.R" = Some (generatorMarker "#" +:+ nl)
  /\ carries_marker "#" (generatorMarker "#" +:+ nl)
  /\ ExportsGenerator_new "/pkg/R/RcppExports.R" "pkg" "#" unreadable_world
     = (Throws (file_io_error "/pkg/R/RcppExports.R"), unreadable_world).
Proof. split; [reflexivity | split; [by exists nl | reflexivity]]. Qed.
End BaseClassSample.

(* ===================================================================== *)
(** * The conditional artifacts: properties                               *)
(* ===================================================================== *)

Section ConditionalArtifacts.
Import Text Attributes Spec.
Open Scope string_scope.
Context `{Externals}.

Lemma removeFile_run (path : string) (w : World) :
  removeFile path w =
    match files w !! path with
    | Some _ => (Returns true, removed w path)
    | None => (Returns false, w)
    end.
Proof. unfold removeFile. by destruct (files w !! path). Qed.

Lemma removed_lookup (path : string) (w : World) : files (removed w path) !! path = None.
Proof. cbn. apply lookup_delete_eq. Qed.

(** Processing one source file with the cross-extension header or the
    umbrella header generator leaves the world alone and raises the
    C++ interface flag when the file requests that interface. *)
Lemma writeFunctions_conditional (g : Generator) (attrs : SourceFileAttributes)
    (verbose : bool) (w : World) :
  is_conditional g = true ->
  exists g',
    writeFunctions g attrs verbose w = (Returns g', w)
    /\ is_conditional g' = true
    /\ targetFile g' = targetFile g
    /\ includeDir_of g' = includeDir_of g
    /\ hasCppInterface g' = hasCppInterface g || hasInterface attrs kInterfaceCpp.
Proof.
  destruct g as [g | g | g | g]; try discriminate; intros _;
    unfold writeFunctions, ExportsGenerator_writeFunctions,
      CppExportsIncludeGenerator_doWriteFunctions,
      CppPackageIncludeGenerator_doWriteFunctions, hasCppInterface, targetFile;
    destruct (hasInterface attrs kInterfaceCpp); cbn;
    eexists; (split; [reflexivity|]); cbn;
    rewrite ?orb_true_r, ?orb_false_r; done.
Qed.

Lemma writeFunctions_all_conditional (sources : list SourceFileAttributes)
    (verbose : bool) (w : World) :
  forall g : Generator,
    is_conditional g = true ->
    exists g',
      writeFunctions_all g sources verbose w = (Returns g', w)
      /\ is_conditional g' = true
      /\ targetFile g' = targetFile g
      /\ includeDir_of g' = includeDir_of g
      /\ hasCppInterface g' = hasCppInterface g || requests_cpp sources.
Proof.
  induction sources as [|attrs sources IH]; intros g Hg; cbn [writeFunctions_all].
  - exists g. cbn. by rewrite orb_false_r.
  - destruct (writeFunctions_conditional g attrs verbose w Hg)
      as (g1 & Hrun & Hcond & Htarget & Hdir & Hflag).
    destruct (IH g1 Hcond) as (g2 & Hrun2 & Hcond2 & Htarget2 & Hdir2 & Hflag2).
    exists g2. rewrite (bind_returns _ _ _ _ _ Hrun).
    repeat split; try congruence.
    rewrite Hflag2, Hflag. cbn [requests_cpp existsb]. by rewrite orb_assoc.
Qed.

Lemma writeBegin_conditional (g : Generator) :
  is_conditional (writeBegin g) = is_conditional g
  /\ targetFile (writeBegin g) = targetFile g
  /\ includeDir_of (writeBegin g) = includeDir_of g
  /\ hasCppInterface (writeBegin g) = hasCppInterface g.
Proof. by destruct g. Qed.

Lemma writeEnd_conditional (g : Generator) :
  is_conditional (writeEnd g) = is_conditional g
  /\ targetFile (writeEnd g) = targetFile g
  /\ includeDir_of (writeEnd g) = includeDir_of g
  /\ hasCppInterface (writeEnd g) = hasCppInterface g.
Proof.
  destruct g as [g | g | g | g];
    unfold writeEnd, CppExportsGenerator_writeEnd, CppPackageIncludeGenerator_writeEnd,
      RExportsGenerator_writeEnd, hasCppInterface, targetFile;
    cbn [base_of]; try destruct (hasCppInterface_ _) eqn:Hflag; cbn; done.
Qed.

(** The [commit] of the two conditional generators. *)
Lemma commit_conditional (g : Generator) (includes : list string) :
  is_conditional g = true ->
  commit g includes =
    if hasCppInterface g
    then createDirectory (includeDir_of g) ≫=
           (fun _ => ExportsGenerator_commit (base_of g) (preamble_of g includes))
    else removeFile (targetFile g).
Proof. destruct g; try discriminate; intros _; reflexivity. Qed.

(** C6.  Take the cross-extension header generator or the umbrella header
    generator as its constructor leaves it, and drive it over a batch of
    source files.  If no file of the batch requests the C++ interface, its
    commit removes the target file: an existing file is deleted, which is
    the only change to the world, and nothing is written or created.  If
    some file requests it, the commit creates the include directory if
    necessary and goes through the write-if-changed commit of the base
    class. *)
Theorem conditional_artifacts (g0 : Generator) (sources : list SourceFileAttributes)
    (verbose : bool) (includes : list string) (w0 : World) :
  is_conditional g0 = true ->
  hasCppInterface g0 = false ->
  exists g,
    writeFunctions_all (writeBegin g0) sources verbose w0 = (Returns g, w0)
    /\ targetFile (writeEnd g) = targetFile g0
    /\ forall w : World,
         if requests_cpp sources then
           commit (writeEnd g) includes w =
             (createDirectory (includeDir_of g0) ≫=
                (fun _ => ExportsGenerator_commit (base_of (writeEnd g))
                            (preamble_of (writeEnd g) includes))) w
         else
           commit (writeEnd g) includes w =
             match files w !! targetFile g0 with
             | Some _ => (Returns true, removed w (targetFile g0))
             | None => (Returns false, w)
             end
           /\ files (snd (commit (writeEnd g) includes w)) !! targetFile g0 = None.
Proof.
  intros Hcond Hflag.
  destruct (writeBegin_conditional g0) as (Hb1 & Hb2 & Hb3 & Hb4).
  destruct (writeFunctions_all_conditional sources verbose w0 (writeBegin g0))
    as (g & Hrun & Hg1 & Hg2 & Hg3 & Hg4); [congruence|].
  destruct (writeEnd_conditional g) as (He1 & He2 & He3 & He4).
  exists g. split; [exact Hrun|]. split; [congruence|].
  intros w. rewrite commit_conditional by congruence.
  rewrite He4, Hg4, Hb4, Hflag. cbn [orb].
  destruct (requests_cpp sources).
  - by rewrite He3, Hg3, Hb3.
  - rewrite He2, Hg2, Hb2, removeFile_run.
    destruct (files w !! targetFile g0) eqn:Hfile; cbn [snd].
    + split; [reflexivity | apply removed_lookup].
    + by split.
Qed.
End ConditionalArtifacts.

Section ConditionalArtifactsSample.
Import Text Attributes Spec Sample.
Open Scope string_scope.

(** The umbrella header generator over a batch whose only file requests
    the R interface alone. *)
Lemma conditional_artifacts_witness :
  exists g,
    writeFunctions_all (writeBegin (CppPackage fresh_CppPackageIncludeGenerator))
                       [add_r] false empty_world
    = (Returns g, empty_world)
    /\ targetFile (writeEnd g) = "/pkg/inst/include/pkg.h"
    /\ forall w : World,
         commit (writeEnd g) [] w =
           match files w !! "/pkg/inst/include/pkg.h" with
           | Some _ => (Returns true, removed w "/pkg/inst/include/pkg.h")
           | None => (Returns false, w)
           end
         /\ files (snd (commit (writeEnd g) [] w)) !! "/pkg/inst/include/pkg.h" = None.
Proof.
  exact (@conditional_artifacts Sample.types Sample.externals
           (CppPackage fresh_CppPackageIncludeGenerator) [add_r] false []
           empty_world eq_refl eq_refl).
Defined.
End ConditionalArtifactsSample.

(* ===================================================================== *)
(** * Signatures: properties                                              *)
(* ===================================================================== *)

Section Signatures.
Import Text Attributes Spec.
Open Scope string_scope.
Context `{Externals}.

Lemma occurs_in_refl (piece : string) : occurs_in piece piece.
Proof. exists EmptyString, EmptyString. by rewrite app_nil_r. Qed.

Lemma occurs_in_app_l (piece s t : string) : occurs_in piece s -> occurs_in piece (s +:+ t).
Proof.
  intros (before & after & ->). exists before, (after +:+ t).
  by rewrite !app_assoc.
Qed.

Lemma occurs_in_app_r (piece s t : string) : occurs_in piece t -> occurs_in piece (s +:+ t).
Proof.
  intros (before & after & ->). exists (s +:+ before), after.
  by rewrite !app_assoc.
Qed.

(** Walk down a concatenation to the part that holds the piece. *)
Ltac find_piece here :=
  first [ apply occurs_in_app_l; solve [here]
        | apply occurs_in_app_r; find_piece here ].

(** A loop whose body does not depend on the index writes the text of
    each element. *)
Lemma for_each_occurs {A : Type} (text : A -> string) (v : list A) (x : A) :
  In x v -> forall i, occurs_in (text x) (for_each (fun _ a => text a) i v).
Proof.
  induction v as [|y v IH]; intros Hin i; [destruct Hin|].
  cbn [for_each]. destruct Hin as [-> | Hin].
  - apply occurs_in_app_l, occurs_in_refl.
  - apply occurs_in_app_r. by apply IH.
Qed.

(** The tracked C++ exports are those tracked before followed by the
    functions of the file that get a C++ interface, in order. *)
Lemma track_cppExports_filter (its cppExports : list Attribute) :
  track_cppExports its cppExports = (cppExports ++ List.filter has_cpp_interface its)%list.
Proof.
  revert cppExports. induction its as [|it its IH]; intros cppExports;
    cbn [track_cppExports List.filter].
  - by rewrite List.app_nil_r.
  - unfold has_cpp_interface at 1.
    destruct (isExportedFunction it); cbn [andb]; [|apply IH].
    destruct (Function_isHidden _); cbn [negb]; [apply IH|].
    rewrite IH, <- List.app_assoc. reflexivity.
Qed.

(** Renaming a function to a name and taking its signature is taking
    its signature under that name. *)
Lemma signature_renamedTo (f : Function) (name : string) :
  signature (renamedTo f name) = signature_named f name.
Proof. reflexivity. Qed.

(** The signatures the call adapter registers for a source file are,
    in order, the signatures the header validates for it. *)
Lemma registered_signatures_are_validated (attrs : SourceFileAttributes) :
  map (fun attr => signature_named (function attr) (exportedName attr))
      (track_cppExports (attributes attrs) [])
  = map (fun attr => signature (renamedTo (function attr) (exportedName attr)))
        (List.filter has_cpp_interface (attributes attrs)).
Proof. by rewrite track_cppExports_filter. Qed.

(** C2.  For a function of a source file that requests the C++ interface,
    exported and not hidden under its exported name: the call adapter
    generator tracks it and, at the end, writes a signatures.insert line
    with the signature of the original function under its exported name;
    the cross-extension header generator writes a validateSignature call
    with the signature of the function renamed to its exported name; and
    the two signature strings are equal. *)
Theorem signature_join
    (g : CppExportsGenerator) (gi : CppExportsIncludeGenerator)
    (attrs : SourceFileAttributes) (attr : Attribute) (verbose : bool) (w : World) :
  hasInterface attrs kInterfaceCpp = true ->
  In attr (attributes attrs) ->
  isExportedFunction attr = true ->
  Function_isHidden (renamedTo (function attr) (exportedName attr)) = false ->
  let registered := signature_named (function attr) (exportedName attr) in
  let validated := signature (renamedTo (function attr) (exportedName attr)) in
  registered = validated
  /\ (exists g' w',
        writeFunctions (Cpp g) attrs verbose w = (Returns (Cpp g'), w')
        /\ In attr (cppExports_ g')
        /\ occurs_in ("        signatures.insert(" +:+ dq +:+ registered +:+ dq +:+ ");" +:+ nl)
                     (codeStream_ (cpp_base (CppExportsGenerator_writeEnd g'))))
  /\ (exists gi',
        writeFunctions (CppInclude gi) attrs verbose w = (Returns (CppInclude gi'), w)
        /\ occurs_in ("            validateSignature(" +:+ dq +:+ validated +:+ dq +:+ ");" +:+ nl)
                     (codeStream_ (inc_base gi'))).
Proof.
  intros Hcpp Hin Hexported Hhidden. cbn zeta.
  split; [reflexivity|]. split.
  - unfold writeFunctions, ExportsGenerator_writeFunctions,
      CppExportsGenerator_doWriteFunctions.
    rewrite Hcpp. cbn [cpp_base cppExports_].
    set (printed := if verbose then _ else _).
    assert (exists w', printed w = (Returns (), w')) as [w' Hprinted]
      by (unfold printed; destruct verbose; eexists; reflexivity).
    eexists _, w'. split.
    { erewrite bind_returns; [|erewrite bind_returns by exact Hprinted; reflexivity].
      reflexivity. }
    assert (In attr (track_cppExports (attributes attrs) (cppExports_ g))) as Htracked.
    { rewrite track_cppExports_filter. apply in_or_app. right.
      apply filter_In. split; [exact Hin|].
      unfold has_cpp_interface. by rewrite Hexported, Hhidden. }
    split; [exact Htracked|].
    unfold CppExportsGenerator_writeEnd. cbn [cpp_base hasCppInterface_ ostr
      set_hasCppInterface codeStream_ cppExports_].
    apply occurs_in_app_r. unfold CppExportsGenerator_writeEnd_text. cbn [cppExports_].
    find_piece ltac:(apply (for_each_occurs signatures_insert _ attr Htracked)).
  - unfold writeFunctions, ExportsGenerator_writeFunctions,
      CppExportsIncludeGenerator_doWriteFunctions.
    rewrite Hcpp. cbn [negb]. eexists. split.
    { unfold mbind, IO_bind, mret, IO_ret. reflexivity. }
    cbn [inc_base ostr codeStream_]. apply occurs_in_app_r.
    pose proof (for_each_occurs
                  (CppExportsIncludeGenerator_attribute_text
                     (package_ (set_hasCppInterface (inc_base gi) true)))
                  _ attr Hin 0%nat) as Hblock.
    destruct Hblock as (before & after & ->).
    apply occurs_in_app_r, occurs_in_app_l.
    unfold CppExportsIncludeGenerator_attribute_text. rewrite Hexported, Hhidden.
    unfold CppExportsIncludeGenerator_function_text.
    find_piece ltac:(apply occurs_in_refl).
Qed.
End Signatures.

Section SignaturesSample.
Import Text Attributes Spec Sample.
Open Scope string_scope.

(** The exported function [add] of the sample source file. *)
Lemma signature_join_witness :
  signature_named add "add" = signature (renamedTo add "add")
  /\ (exists g' w',
        writeFunctions (Cpp fresh_CppExportsGenerator) add_cpp false empty_world
        = (Returns (Cpp g'), w')
        /\ In add_export (cppExports_ g')
        /\ occurs_in ("        signatures.insert(" +:+ dq +:+ "double(*add)(int,double)"
                        +:+ dq +:+ ");" +:+ nl)
                     (codeStream_ (cpp_base (CppExportsGenerator_writeEnd g'))))
  /\ (exists gi',
        writeFunctions (CppInclude fresh_CppExportsIncludeGenerator) add_cpp false
                       empty_world
        = (Returns (CppInclude gi'), empty_world)
        /\ occurs_in ("            validateSignature(" +:+ dq +:+ "double(*add)(int,double)"
                        +:+ dq +:+ ");" +:+ nl)
                     (codeStream_ (inc_base gi'))).
Proof.
  exact (@signature_join Sample.types Sample.externals
           fresh_CppExportsGenerator fresh_CppExportsIncludeGenerator
           add_cpp add_export false empty_world
           eq_refl (or_introl eq_refl) eq_refl eq_refl).
Defined.
End SignaturesSample.

Section DefaultArgumentsSample.
Import Text Attributes Spec Sample.
Open Scope string_scope.

(** Numbers with and without the suffix, with and without a point, for
    an integer and for a double argument, and a text that is no number. *)
Lemma cppNumericArgToRArg_cases_witness :
  cppNumericArgToRArg "int" "10L" = "10L"
  /\ cppNumericArgToRArg "int" "10" = "10L"
  /\ cppNumericArgToRArg "int" "2.5" = "2.5"
  /\ cppNumericArgToRArg "double" "10" = "10"
  /\ cppNumericArgToRArg "int" "ten" = EmptyString.
Proof.
  pose proof (@cppNumericArgToRArg_cases Sample.types Sample.externals) as Hcases.
  split; [|split; [|split; [|split]]].
  - specialize (Hcases "int" "10L"). hnf in Hcases.
    destruct Hcases as (Hsuffix & _ & _). apply Hsuffix. exists EmptyString. by split.
  - specialize (Hcases "int" "10"). hnf in Hcases.
    destruct Hcases as (_ & Hinteger & _).
    apply Hinteger; [apply not_L_suffix_empty | reflexivity | discriminate | discriminate].
  - specialize (Hcases "int" "2.5"). hnf in Hcases.
    destruct Hcases as (_ & _ & Hliteral).
    apply Hliteral; [apply not_L_suffix_empty | by left].
  - specialize (Hcases "double" "10"). hnf in Hcases.
    destruct Hcases as (_ & _ & Hliteral).
    apply Hliteral; [apply not_L_suffix_empty | right; by left].
  - exact (Hcases "int" "ten").
Defined.

(** A quoted default value and the keywords, in the sample environment. *)
Lemma literal_and_quoted_translation_witness :
  cppArgToRArg "std::string" "'NA_REAL'" = "'NA_REAL'"
  /\ cppArgToRArg "double" "NA_REAL" = "NA"
  /\ cppArgToRArg "bool" "true" = "TRUE".
Proof.
  pose proof (@literal_and_quoted_translation Sample.types Sample.externals)
    as [Hkeywords Hquoted].
  split; [by apply Hquoted|]. split.
  - apply (Hkeywords "NA_REAL" "NA"); [cbn; tauto | reflexivity].
  - apply (Hkeywords "true" "TRUE"); [cbn; tauto | reflexivity].
Defined.
End DefaultArgumentsSample.

(* ===================================================================== *)
(** * Regeneration: properties                                            *)
(* ===================================================================== *)

Section Regeneration.
Import Text Attributes Spec.
Open Scope string_scope.
Context `{Externals}.

(** What [commit] writes starts with the generator marker. *)
Lemma generatedCode_carries_marker (g : ExportsGenerator) (preamble : string) :
  carries_marker (commentPrefix_ g) (generatedCode g preamble).
Proof.
  unfold carries_marker, generatedCode, headerStream, generatorMarker.
  eexists. rewrite !app_assoc. reflexivity.
Qed.

(** X17.  Running the generation again over the same declarations: a
    generator constructed on the file written by [commit] finds that
    file safe to overwrite, and with the same code in its buffer its
    [commit] writes nothing. *)
Lemma regeneration_writes_nothing (g : ExportsGenerator) (preamble : string) (w : World) :
  targetFile_ g ∉ unreadable w ->
  fst (ExportsGenerator_commit g preamble w) = Returns true ->
  let w' := snd (ExportsGenerator_commit g preamble w) in
  exists again,
    ExportsGenerator_new (targetFile_ g) (package_ g) (commentPrefix_ g) w'
    = (Returns again, w')
    /\ existingCode_ again = generatedCode g preamble
    /\ ExportsGenerator_commit (ostr again (codeStream_ g)) preamble w'
       = (Returns false, w').
Proof.
  intros Hreadable. cbn zeta. rewrite ExportsGenerator_commit_run.
  destruct (empty (codeStream_ g) && negb _); [discriminate|].
  destruct (String.eqb _ _); [discriminate|].
  case_bool_decide; [discriminate|]. intros _. cbn [snd].
  pose proof (generatedCode_carries_marker g preamble) as Hmarker.
  apply prefix_app in Hmarker.
  eexists. split; [|split].
  - rewrite ExportsGenerator_new_run. cbn zeta. cbn [written files unreadable].
    rewrite lookup_insert_eq, bool_decide_false, Hmarker by done. reflexivity.
  - reflexivity.
  - rewrite ExportsGenerator_commit_run.
    cbn [ostr targetFile_ codeStream_ existingCode_ written files].
    rewrite lookup_insert_eq, bool_decide_true by eauto.
    rewrite andb_false_r.
    unfold generatedCode, headerStream.
    cbn [commentPrefix_ codeStream_]. by rewrite String.eqb_refl.
Qed.
End Regeneration.

(* ===================================================================== *)
(** * Sugar: how the expressions relate                                   *)
(* ===================================================================== *)

Section SugarRelations.
Context {STORAGE : Type} `{Storage STORAGE}.

(** X1.  The three partial specialisations of the vector difference skip
    the NA test of an operand whose type promises no NA.  Whenever the
    operands keep that promise at an index, every specialisation returns
    there what the primary template returns. *)
Theorem Minus_Vector_Vector_specialisations_agree
    {LHS_T RHS_T : Type} `{VectorBase STORAGE LHS_T} `{VectorBase STORAGE RHS_T}
    (LHS_NA RHS_NA : bool) (lhs : LHS_T) (rhs : RHS_T) (i : Z) :
  (LHS_NA = false -> is_na (at_ lhs i) = false) ->
  (RHS_NA = false -> is_na (at_ rhs i) = false) ->
  at_ (operator_minus_Vector_Vector LHS_NA RHS_NA lhs rhs) i
  = at_ (operator_minus_Vector_Vector true true lhs rhs) i.
Proof.
  intros Hlhs Hrhs. cbn. unfold Minus_Vector_Vector_at. cbn.
  destruct LHS_NA, RHS_NA; try reflexivity.
  - rewrite (Hrhs eq_refl). reflexivity.
  - rewrite (Hlhs eq_refl). reflexivity.
  - rewrite (Hlhs eq_refl), (Hrhs eq_refl). reflexivity.
Qed.

(** X2.  NA propagates through nested vector differences: when any of
    the three operands of (a - b) - c is NA at an index, so is the
    result. *)
Theorem Minus_Vector_Vector_propagates_NA
    {A B C : Type} `{VectorBase STORAGE A} `{VectorBase STORAGE B} `{VectorBase STORAGE C}
    (a : A) (b : B) (c : C) (i : Z) :
  is_na (at_ a i) = true \/ is_na (at_ b i) = true \/ is_na (at_ c i) = true ->
  is_na (at_ (operator_minus_Vector_Vector true true
                (operator_minus_Vector_Vector true true a b) c) i) = true.
Proof.
  intros Hna. cbn. unfold Minus_Vector_Vector_at. cbn.
  destruct (is_na (at_ a i)) eqn:Ha.
  - by rewrite Ha.
  - destruct (is_na (at_ b i)) eqn:Hb.
    + by rewrite Hb.
    + destruct (is_na (minus (at_ a i) (at_ b i))) eqn:Hd; [exact Hd|].
      destruct Hna as [? | [? | Hc]]; try discriminate. by rewrite Hc.
Qed.

(** X3.  Subtracting a scalar from a vector agrees with subtracting a
    vector that holds the scalar at that index: the two results are NA
    together, and they are equal unless both the element and the scalar
    are NA, in which case the scalar difference returns the scalar and
    the vector difference the element.  Both have the size of the left
    operand. *)
Theorem Minus_Vector_Primitive_as_vector_difference
    {LHS_T RHS_T : Type} `{VectorBase STORAGE LHS_T} `{VectorBase STORAGE RHS_T}
    (lhs : LHS_T) (scalar : STORAGE) (rhs : RHS_T) (i : Z) :
  at_ rhs i = scalar ->
  let by_scalar := operator_minus_Vector_Primitive lhs scalar in
  let by_vector := operator_minus_Vector_Vector true true lhs rhs in
  is_na (at_ by_scalar i) = is_na (at_ by_vector i)
  /\ (is_na (at_ lhs i) && is_na scalar = false -> at_ by_scalar i = at_ by_vector i)
  /\ (is_na (at_ lhs i) && is_na scalar = true ->
      at_ by_scalar i = scalar /\ at_ by_vector i = at_ lhs i)
  /\ size by_scalar = size by_vector.
Proof.
  intros Hrhs. cbn. unfold Minus_Vector_Primitive_at, Minus_Vector_Vector_at,
    Minus_Vector_Primitive_size, Minus_Vector_Vector_size. cbn.
  rewrite Hrhs.
  destruct (is_na (at_ lhs i)) eqn:Hl, (is_na scalar) eqn:Hs; cbn;
    rewrite ?Hl, ?Hs; repeat split; intros; try done.
Qed.

(** X4.  Subtracting a vector from a scalar agrees with the vector
    difference against a vector that holds the scalar at that index as
    long as the scalar is NA or the element is not.  For a scalar that is
    not NA and an element that is, the vector difference returns the NA
    element while the scalar difference subtracts it like any number. *)
Theorem Minus_Primitive_Vector_as_vector_difference
    {LHS_T RHS_T : Type} `{VectorBase STORAGE LHS_T} `{VectorBase STORAGE RHS_T}
    (NA : bool) (scalar : STORAGE) (lhs : LHS_T) (rhs : RHS_T) (i : Z) :
  at_ lhs i = scalar ->
  let by_scalar := operator_minus_Primitive_Vector NA scalar rhs in
  let by_vector := operator_minus_Vector_Vector true true lhs rhs in
  (is_na scalar = true \/ is_na (at_ rhs i) = false ->
   at_ by_scalar i = at_ by_vector i)
  /\ (is_na scalar = false -> is_na (at_ rhs i) = true ->
      at_ by_scalar i = minus scalar (at_ rhs i) /\ at_ by_vector i = at_ rhs i).
Proof.
  intros Hlhs. cbn. unfold Minus_Primitive_Vector_at, Minus_Vector_Vector_at. cbn.
  rewrite Hlhs. split.
  - intros [Hs | Hr]; [by rewrite Hs|].
    rewrite Hr. by destruct (is_na scalar).
  - intros Hs Hr. by rewrite Hs, Hr.
Qed.
End SugarRelations.

Section SugarRelationsSample.

(** A left operand promised NA-free against a right operand with an NA. *)
Lemma Minus_Vector_Vector_specialisations_agree_witness :
  at_ (operator_minus_Vector_Vector false true
         {| iv_data := [5; 7] |} {| iv_data := [1; NA_INTEGER] |}) 1
  = at_ (operator_minus_Vector_Vector true true
           {| iv_data := [5; 7] |} {| iv_data := [1; NA_INTEGER] |}) 1.
Proof.
  apply (Minus_Vector_Vector_specialisations_agree (STORAGE := Z) false true);
    [reflexivity | discriminate].
Defined.

(** An NA in the middle operand of (a - b) - c. *)
Lemma Minus_Vector_Vector_propagates_NA_witness :
  is_na (at_ (operator_minus_Vector_Vector true true
                (operator_minus_Vector_Vector true true
                   {| iv_data := [5; 7] |} {| iv_data := [1; NA_INTEGER] |})
                {| iv_data := [2; 2] |}) 1) = true.
Proof.
  apply (Minus_Vector_Vector_propagates_NA (STORAGE := Z)).
  right. left. reflexivity.
Defined.

(** The scalar 2 against the vector (2, 2). *)
Lemma Minus_Vector_Primitive_as_vector_difference_witness :
  let by_scalar := operator_minus_Vector_Primitive {| iv_data := [5; NA_INTEGER] |} 2 in
  let by_vector := operator_minus_Vector_Vector true true
                     {| iv_data := [5; NA_INTEGER] |} {| iv_data := [2; 2] |} in
  is_na (at_ by_scalar 1) = is_na (at_ by_vector 1)
  /\ (is_na (at_ {| iv_data := [5; NA_INTEGER] |} 1) && is_na 2 = false ->
      at_ by_scalar 1 = at_ by_vector 1)
  /\ (is_na (at_ {| iv_data := [5; NA_INTEGER] |} 1) && is_na 2 = true ->
      at_ by_scalar 1 = 2 /\ at_ by_vector 1 = at_ {| iv_data := [5; NA_INTEGER] |} 1)
  /\ size by_scalar = size by_vector.
Proof.
  exact (Minus_Vector_Primitive_as_vector_difference (STORAGE := Z)
           {| iv_data := [5; NA_INTEGER] |} 2 {| iv_data := [2; 2] |} 1 eq_refl).
Defined.

(** The scalar 5 against the vector (5, 5), with an NA element on the
    right. *)
Lemma Minus_Primitive_Vector_as_vector_difference_witness :
  let by_scalar := operator_minus_Primitive_Vector true 5 {| iv_data := [1; NA_INTEGER] |} in
  let by_vector := operator_minus_Vector_Vector true true
                     {| iv_data := [5; 5] |} {| iv_data := [1; NA_INTEGER] |} in
  (is_na 5 = true \/ is_na (at_ {| iv_data := [1; NA_INTEGER] |} 1) = false ->
   at_ by_scalar 1 = at_ by_vector 1)
  /\ (is_na 5 = false -> is_na (at_ {| iv_data := [1; NA_INTEGER] |} 1) = true ->
      at_ by_scalar 1 = minus 5 (at_ {| iv_data := [1; NA_INTEGER] |} 1)
      /\ at_ by_vector 1 = at_ {| iv_data := [1; NA_INTEGER] |} 1).
Proof.
  exact (Minus_Primitive_Vector_as_vector_difference (STORAGE := Z)
           true 5 {| iv_data := [5; 5] |} {| iv_data := [1; NA_INTEGER] |} 1 eq_refl).
Defined.
End SugarRelationsSample.

(* ===================================================================== *)
(** * Processing source files: properties                                 *)
(* ===================================================================== *)

Section BatchProcessing.
Import Text Attributes Spec.
Open Scope string_scope.
Context `{Externals}.

Lemma ostr_nil (g : ExportsGenerator) : ostr g EmptyString = g.
Proof. destruct g. unfold ostr. cbn. by rewrite app_nil_r. Qed.

Lemma ostr_ostr (g : ExportsGenerator) (a b : string) :
  ostr (ostr g a) b = ostr g (a +:+ b).
Proof. unfold ostr. cbn. by rewrite app_assoc. Qed.

Lemma same_file_system_refl (w : World) : same_file_system w w.
Proof. by repeat split. Qed.

Lemma same_file_system_trans (w1 w2 w3 : World) :
  same_file_system w1 w2 -> same_file_system w2 w3 -> same_file_system w1 w3.
Proof. unfold same_file_system. intros (?&?&?&?&?) (?&?&?&?&?). repeat split; congruence. Qed.

Lemma same_file_system_add_warnings (w : World) (msgs : list string) :
  same_file_system w (add_warnings w msgs).
Proof. by repeat split. Qed.

Lemma same_generator_refl (g : Generator) : same_generator g g.
Proof. by destruct g. Qed.

Lemma same_generator_trans (g1 g2 g3 : Generator) :
  same_generator g1 g2 -> same_generator g2 g3 -> same_generator g1 g3.
Proof.
  unfold same_generator. intros (?&?&?&?&?&?) (?&?&?&?&?&?).
  split; [by destruct g1, g2, g3|]. repeat split; congruence.
Qed.

(** A loop whose body does not depend on the index. *)
Lemma for_each_index {A : Type} (text : A -> string) (v : list A) (i j : nat) :
  for_each (fun _ a => text a) i v = for_each (fun _ a => text a) j v.
Proof.
  revert i j. induction v as [|x v IH]; intros i j; [reflexivity|].
  cbn [for_each]. by rewrite (IH (S i) (S j)).
Qed.

Lemma for_each_app {A : Type} (text : A -> string) (v1 v2 : list A) (i : nat) :
  for_each (fun _ a => text a) i (v1 ++ v2)
  = for_each (fun _ a => text a) i v1 +:+ for_each (fun _ a => text a) i v2.
Proof.
  revert i. induction v1 as [|x v1 IH]; intros i; cbn [for_each List.app].
  - reflexivity.
  - rewrite IH, app_assoc. f_equal. f_equal. apply for_each_index.
Qed.

(** The loop of the R wrapper generator writes the wrappers of the
    attributes in order and shows the warnings of their parameter lists
    in order. *)
Lemma RExportsGenerator_each_run (its : list Attribute) :
  forall (g : ExportsGenerator) (w : World),
    RExportsGenerator_each g its w =
      (Returns (ostr g (for_each (fun _ it => R_wrapper (package_ g) it) 0 its)),
       add_warnings w (concat (map R_wrapper_warnings its))).
Proof.
  induction its as [|it its IH]; intros g w; cbn [RExportsGenerator_each for_each map concat].
  - by rewrite ostr_nil, add_warnings_nil.
  - unfold R_wrapper at 1, R_wrapper_warnings at 1.
    destruct (isExportedFunction it); cbn [negb].
    + unfold mbind, IO_bind. rewrite generateRArgList_concat, IH.
      rewrite ostr_ostr, add_warnings_app. cbn [package_ ostr].
      by rewrite (for_each_index (R_wrapper (package_ g)) its 1 0).
    + rewrite IH. by rewrite (for_each_index (R_wrapper (package_ g)) its 1 0).
Qed.

(** What processing one source file does to a generator of each kind. *)
Lemma writeFunctions_Cpp_run (g : CppExportsGenerator) (attrs : SourceFileAttributes)
    (verbose : bool) (w : World) :
  exists w',
    writeFunctions (Cpp g) attrs verbose w =
      (Returns
         (Cpp {| cpp_base :=
                   ostr (if hasInterface attrs kInterfaceCpp
                         then set_hasCppInterface (cpp_base g) true
                         else cpp_base g)
                        (generateCpp attrs true (package_ (cpp_base g)));
                 cppExports_ :=
                   if hasInterface attrs kInterfaceCpp
                   then track_cppExports (attributes attrs) (cppExports_ g)
                   else cppExports_ g |}),
       w')
    /\ same_file_system w w'
    /\ warnings w' = warnings w
    /\ (verbose = false -> w' = w).
Proof.
  unfold writeFunctions, ExportsGenerator_writeFunctions,
    CppExportsGenerator_doWriteFunctions, mbind, IO_bind, mret, IO_ret.
  destruct verbose, (hasInterface attrs kInterfaceCpp); cbn;
    eexists; (split; [reflexivity|]); by repeat split.
Qed.

Lemma writeFunctions_R_run (g : RExportsGenerator) (attrs : SourceFileAttributes)
    (verbose : bool) (w : World) :
  writeFunctions (R g) attrs verbose w =
    (Returns
       (R {| r_base :=
               ostr (if hasInterface attrs kInterfaceCpp
                     then set_hasCppInterface (r_base g) true
                     else r_base g)
                    (if hasInterface attrs kInterfaceR
                     then for_each (fun _ it => R_wrapper (package_ (r_base g)) it) 0
                                   (attributes attrs)
                     else EmptyString) |}),
     add_warnings w (if hasInterface attrs kInterfaceR
                     then concat (map R_wrapper_warnings (attributes attrs))
                     else [])).
Proof.
  destruct g as [base].
  unfold writeFunctions, ExportsGenerator_writeFunctions,
    RExportsGenerator_doWriteFunctions, mbind, IO_bind, mret, IO_ret.
  cbn [r_base].
  destruct (hasInterface attrs kInterfaceR);
    [rewrite RExportsGenerator_each_run | rewrite ostr_nil, add_warnings_nil];
    destruct (hasInterface attrs kInterfaceCpp); reflexivity.
Qed.

(** Processing one source file never throws, leaves the file system
    alone, keeps the generator what it is and raises its C++ interface
    flag when the file requests that interface. *)
Lemma writeFunctions_effect (g : Generator) (attrs : SourceFileAttributes)
    (verbose : bool) (w : World) :
  exists g' w',
    writeFunctions g attrs verbose w = (Returns g', w')
    /\ same_file_system w w'
    /\ same_generator g g'
    /\ hasCppInterface g' = hasCppInterface g || hasInterface attrs kInterfaceCpp.
Proof.
  destruct g as [g | g | g | g].
  - destruct (writeFunctions_Cpp_run g attrs verbose w) as (w' & Hrun & Hfs & _).
    eexists _, w'. split; [exact Hrun|]. split; [exact Hfs|].
    unfold same_generator, hasCppInterface.
    destruct (hasInterface attrs kInterfaceCpp); cbn;
      rewrite ?orb_true_r, ?orb_false_r; by repeat split.
  - destruct (writeFunctions_conditional (CppInclude g) attrs verbose w eq_refl)
      as (g' & Hrun & Hcond & Htarget & Hdir & Hflag).
    exists g', w. split; [exact Hrun|]. split; [apply same_file_system_refl|].
    split; [|exact Hflag].
    revert Hrun. unfold writeFunctions, ExportsGenerator_writeFunctions,
      CppExportsIncludeGenerator_doWriteFunctions, mbind, IO_bind, mret, IO_ret.
    destruct (hasInterface attrs kInterfaceCpp); cbn; intros [= <-]; by repeat split.
  - destruct (writeFunctions_conditional (CppPackage g) attrs verbose w eq_refl)
      as (g' & Hrun & Hcond & Htarget & Hdir & Hflag).
    exists g', w. split; [exact Hrun|]. split; [apply same_file_system_refl|].
    split; [|exact Hflag].
    revert Hrun. unfold writeFunctions, ExportsGenerator_writeFunctions,
      CppPackageIncludeGenerator_doWriteFunctions, mbind, IO_bind, mret, IO_ret.
    destruct (hasInterface attrs kInterfaceCpp); cbn; intros [= <-]; by repeat split.
  - eexists _, _. split; [apply writeFunctions_R_run|].
    split; [apply same_file_system_add_warnings|].
    unfold same_generator, hasCppInterface.
    destruct (hasInterface attrs kInterfaceCpp); cbn;
      rewrite ?orb_true_r, ?orb_false_r; by repeat split.
Qed.

Lemma writeBegin_same (g : Generator) :
  same_generator g (writeBegin g) /\ hasCppInterface (writeBegin g) = hasCppInterface g.
Proof. destruct g; by repeat split. Qed.

Lemma writeEnd_same (g : Generator) :
  same_generator g (writeEnd g) /\ hasCppInterface (writeEnd g) = hasCppInterface g.
Proof.
  destruct g as [g | g | g | g];
    unfold writeEnd, CppExportsGenerator_writeEnd, CppPackageIncludeGenerator_writeEnd,
      RExportsGenerator_writeEnd, hasCppInterface, same_generator;
    cbn [base_of]; try destruct (hasCppInterface_ _) eqn:Hflag; cbn; by repeat split.
Qed.
End BatchProcessing.

Section BatchProperties.
Import Text Attributes Spec.
Open Scope string_scope.
Context `{Externals}.

(** Walk down a concatenation to the place where [here] shows the piece. *)
Ltac locate_piece here :=
  first [ solve [here]
        | apply occurs_in_app_l; solve [here]
        | apply occurs_in_app_r; locate_piece here ].

(** X5.  The coordinator processes a source file with every generator
    without throwing and without touching the file system: nothing is
    written, removed or created before commit.  Every generator stays
    the generator it was, for the same target file, and the C++ interface
    flags of all generators rise together when the file requests that
    interface.  Beginning and ending the batch change neither the
    generators' identity nor their flags. *)
Theorem ExportsGenerators_writeFunctions_keeps_files
    (generators : list Generator) (attrs : SourceFileAttributes)
    (verbose : bool) (w : World) :
  (exists generators' w',
      ExportsGenerators_writeFunctions generators attrs verbose w
      = (Returns generators', w')
      /\ same_file_system w w'
      /\ Forall2 same_generator generators generators'
      /\ map hasCppInterface generators'
         = map (fun g => hasCppInterface g || hasInterface attrs kInterfaceCpp)
               generators)
  /\ Forall2 same_generator generators (ExportsGenerators_writeBegin generators)
  /\ map hasCppInterface (ExportsGenerators_writeBegin generators)
     = map hasCppInterface generators
  /\ Forall2 same_generator generators (ExportsGenerators_writeEnd generators)
  /\ map hasCppInterface (ExportsGenerators_writeEnd generators)
     = map hasCppInterface generators.
Proof.
  split.
  - revert w. induction generators as [|g generators IH]; intros w;
      cbn [ExportsGenerators_writeFunctions].
    + exists [], w. split; [reflexivity|]. split; [apply same_file_system_refl|].
      split; [constructor | reflexivity].
    + destruct (writeFunctions_effect g attrs verbose w)
        as (g' & w1 & Hrun & Hfs & Hsame & Hflag).
      destruct (IH w1) as (generators' & w2 & Hrun2 & Hfs2 & Hsame2 & Hflags).
      exists (g' :: generators'), w2.
      rewrite (bind_returns _ _ _ _ _ Hrun), (bind_returns _ _ _ _ _ Hrun2).
      split; [reflexivity|].
      split; [by apply same_file_system_trans with w1|].
      split; [by constructor|].
      cbn [map]. by rewrite Hflag, Hflags.
  - unfold ExportsGenerators_writeBegin, ExportsGenerators_writeEnd.
    induction generators as [|g generators (IH1 & IH2 & IH3 & IH4)]; cbn [map].
    + repeat split; constructor.
    + destruct (writeBegin_same g) as [Hb1 Hb2], (writeEnd_same g) as [He1 He2].
      repeat split; try (by constructor); congruence.
Qed.

(** The C++ exports tracked over a batch of source files. *)
Lemma writeFunctions_all_Cpp_run (sources : list SourceFileAttributes) (verbose : bool) :
  forall (g : CppExportsGenerator) (w : World),
    exists g' w',
      writeFunctions_all (Cpp g) sources verbose w = (Returns (Cpp g'), w')
      /\ same_file_system w w'
      /\ cppExports_ g' = (cppExports_ g ++ cpp_exports_of sources)%list
      /\ package_ (cpp_base g') = package_ (cpp_base g)
      /\ hasCppInterface_ (cpp_base g')
         = hasCppInterface_ (cpp_base g) || requests_cpp sources.
Proof.
  induction sources as [|attrs sources IH]; intros g w; cbn [writeFunctions_all].
  - exists g, w. split; [reflexivity|]. split; [apply same_file_system_refl|].
    split; [cbn; by rewrite List.app_nil_r|]. split; [reflexivity|].
    cbn. by rewrite orb_false_r.
  - destruct (writeFunctions_Cpp_run g attrs verbose w) as (w1 & Hrun & Hfs & _).
    rewrite (bind_returns _ _ _ _ _ Hrun).
    match type of Hrun with _ = (Returns (Cpp ?g1), _) =>
      destruct (IH g1 w1) as (g' & w' & Hrun' & Hfs' & Hexports & Hpkg & Hflag)
    end.
    exists g', w'. split; [exact Hrun'|].
    split; [by apply same_file_system_trans with w1|].
    cbn [cppExports_ cpp_base] in Hexports, Hpkg, Hflag.
    cbn [cpp_exports_of flat_map requests_cpp existsb].
    fold (cpp_exports_of sources). fold (requests_cpp sources).
    rewrite Hexports, Hpkg, Hflag.
    destruct (hasInterface attrs kInterfaceCpp); cbn [orb].
    + rewrite track_cppExports_filter, <- List.app_assoc. cbn.
      by rewrite orb_true_r.
    + by repeat split.
Qed.

(** X6.  Over a batch of source files the call adapter generator tracks
    exactly the exported functions, not hidden under their exported
    name, of the files that request the C++ interface, in order, after
    those it tracked before.  Whenever the batch adds a function, the
    C++ interface flag is raised, so that the end of the batch registers
    every one of them with R_RegisterCCallable. *)
Theorem cppExports_over_batch (g : CppExportsGenerator)
    (sources : list SourceFileAttributes) (verbose : bool) (w : World) :
  exists g' w',
    writeFunctions_all (Cpp g) sources verbose w = (Returns (Cpp g'), w')
    /\ cppExports_ g'
       = (cppExports_ g
            ++ flat_map (fun attrs =>
                           if hasInterface attrs kInterfaceCpp
                           then List.filter
                                  (fun attr =>
                                     isExportedFunction attr
                                     && negb (Function_isHidden
                                                (renamedTo (function attr)
                                                           (exportedName attr))))
                                  (attributes attrs)
                           else [])
                        sources)%list
    /\ forall attr,
         In attr (cpp_exports_of sources) ->
         hasCppInterface_ (cpp_base g') = true
         /\ occurs_in (registerCCallable (package_ (cpp_base g)) 4 (exportedName attr)
                                         (fn_name (function attr)) +:+ nl)
                      (codeStream_ (cpp_base (CppExportsGenerator_writeEnd g'))).
Proof.
  destruct (writeFunctions_all_Cpp_run sources verbose g w)
    as (g' & w' & Hrun & _ & Hexports & Hpkg & Hflag).
  exists g', w'. split; [exact Hrun|]. split; [exact Hexports|].
  intros attr Hin.
  assert (requests_cpp sources = true) as Hrequested.
  { unfold cpp_exports_of in Hin. apply in_flat_map in Hin as (attrs & Hsource & Hattr).
    unfold requests_cpp. apply existsb_exists. exists attrs. split; [exact Hsource|].
    by destruct (hasInterface attrs kInterfaceCpp). }
  rewrite Hrequested, orb_true_r in Hflag. split; [exact Hflag|].
  unfold CppExportsGenerator_writeEnd. rewrite Hflag. cbn [cpp_base ostr codeStream_].
  apply occurs_in_app_r. unfold CppExportsGenerator_writeEnd_text. rewrite Hpkg.
  assert (In attr (cppExports_ g')) as Htracked
    by (rewrite Hexports; apply in_or_app; by right).
  locate_piece ltac:(apply (for_each_occurs
                            (fun attr => registerCCallable (package_ (cpp_base g)) 4
                                           (exportedName attr) (fn_name (function attr))
                                         +:+ nl)
                            _ attr Htracked)).
Qed.

Lemma for_each_filter {A : Type} (keep : A -> bool) (text : A -> string) (v : list A) :
  forall i,
    for_each (fun _ a => if keep a then text a else EmptyString) i v
    = for_each (fun _ a => text a) i (List.filter keep v).
Proof.
  induction v as [|x v IH]; intros i; cbn [for_each List.filter]; [reflexivity|].
  destruct (keep x); cbn [for_each].
  - by rewrite IH.
  - rewrite IH. apply for_each_index.
Qed.

Lemma for_each_concat {A : Type} (text : A -> string) (v : list A) :
  forall i, for_each (fun _ a => text a) i v = String.concat EmptyString (map text v).
Proof.
  induction v as [|x v IH]; intros i; cbn [for_each map]; [reflexivity|].
  rewrite IH. destruct v as [|y v]; [apply app_nil_r | reflexivity].
Qed.

(** X7.  For a source file that requests the R interface the R wrapper
    generator appends the wrappers of the exported functions of the
    file, in order, each with its comma-joined parameter list, and shows
    the warnings of those parameter lists in order; for a file that does
    not request the R interface it appends nothing and shows nothing.
    It never throws and changes nothing else in the world. *)
Theorem RExportsGenerator_wrappers_in_order (g : RExportsGenerator)
    (attrs : SourceFileAttributes) (verbose : bool) (w : World) :
  let exported :=
    if hasInterface attrs kInterfaceR
    then List.filter isExportedFunction (attributes attrs)
    else [] in
  let wrapper attribute :=
    RExportsGenerator_function_text (package_ (r_base g)) attribute
      (String.concat ", " (map rArg_text (fn_arguments (function attribute)))) in
  let shown attribute :=
    concat (map (rArg_warnings (function attribute))
                (fn_arguments (function attribute))) in
  RExportsGenerator_doWriteFunctions g attrs verbose w =
    (Returns {| r_base := ostr (r_base g)
                               (String.concat EmptyString (map wrapper exported)) |},
     add_warnings w (concat (map shown exported))).
Proof.
  cbn zeta. destruct g as [base]. unfold RExportsGenerator_doWriteFunctions.
  cbn [r_base]. destruct (hasInterface attrs kInterfaceR).
  - unfold mbind, IO_bind, mret, IO_ret. rewrite RExportsGenerator_each_run.
    unfold R_wrapper. rewrite for_each_filter, for_each_concat.
    f_equal. f_equal.
    induction (attributes attrs) as [|it its IH]; [reflexivity|].
    cbn [map concat List.filter]. unfold R_wrapper_warnings at 1.
    destruct (isExportedFunction it); cbn [map concat]; by rewrite IH.
  - cbn. by rewrite ostr_nil, add_warnings_nil.
Qed.

(** What processing source files does to the umbrella header generator. *)
Lemma writeFunctions_all_CppPackage_run (sources : list SourceFileAttributes)
    (verbose : bool) (w : World) :
  forall g : CppPackageIncludeGenerator,
    exists g',
      writeFunctions_all (CppPackage g) sources verbose w = (Returns (CppPackage g'), w)
      /\ codeStream_ (pkg_base g') = codeStream_ (pkg_base g)
      /\ package_ (pkg_base g') = package_ (pkg_base g)
      /\ hasCppInterface_ (pkg_base g')
         = hasCppInterface_ (pkg_base g) || requests_cpp sources.
Proof.
  induction sources as [|attrs sources IH]; intros g; cbn [writeFunctions_all].
  - exists g. cbn. by rewrite orb_false_r.
  - unfold writeFunctions at 1, ExportsGenerator_writeFunctions,
      CppPackageIncludeGenerator_doWriteFunctions.
    unfold mbind at 1 2, IO_bind, mret, IO_ret.
    match goal with |- context [writeFunctions_all (CppPackage ?g1)] =>
      destruct (IH g1) as (g' & Hrun & Hcode & Hpkg & Hflag)
    end.
    exists g'. split; [exact Hrun|].
    cbn [requests_cpp existsb]. fold (requests_cpp sources).
    rewrite Hcode, Hpkg, Hflag.
    destruct (hasInterface attrs kInterfaceCpp); cbn; by rewrite ?orb_true_r.
Qed.

(** X8.  What the umbrella header generator has to commit after a batch
    depends on the package name alone: the include of the cross-extension
    header between the header guard, when some file of the batch requests
    the C++ interface, and nothing otherwise.  The functions of the batch
    do not show in it. *)
Theorem umbrella_header_code (g0 : CppPackageIncludeGenerator)
    (sources : list SourceFileAttributes) (verbose : bool) (w : World) :
  codeStream_ (pkg_base g0) = EmptyString ->
  hasCppInterface_ (pkg_base g0) = false ->
  exists g,
    writeFunctions_all (writeBegin (CppPackage g0)) sources verbose w = (Returns g, w)
    /\ codeStream_ (base_of (writeEnd g))
       = if requests_cpp sources
         then "#ifndef __" +:+ package_ (pkg_base g0) +:+ "_h__" +:+ nl
              +:+ "#define __" +:+ package_ (pkg_base g0) +:+ "_h__" +:+ nl +:+ nl
              +:+ "#include " +:+ dq +:+ package_ (pkg_base g0) +:+ "_RcppExports.h"
              +:+ dq +:+ nl +:+ nl
              +:+ "#endif // __" +:+ package_ (pkg_base g0) +:+ "_h__" +:+ nl
         else EmptyString.
Proof.
  intros Hcode Hflag. cbn [writeBegin].
  destruct (writeFunctions_all_CppPackage_run sources verbose w g0)
    as (g & Hrun & Hcode' & Hpkg & Hflag').
  exists (CppPackage g). split; [exact Hrun|].
  cbn [writeEnd base_of]. unfold CppPackageIncludeGenerator_writeEnd.
  rewrite Hflag', Hflag. cbn [orb].
  destruct (requests_cpp sources); [|congruence].
  cbn [pkg_base ostr codeStream_]. rewrite Hcode', Hcode, Hpkg.
  unfold CppPackageIncludeGenerator_getHeaderGuard, kRcppExportsSuffix.
  rewrite !app_assoc. reflexivity.
Qed.
End BatchProperties.

(* ===================================================================== *)
(** * Committing and removing: properties                                 *)
(* ===================================================================== *)

Section CommitAndRemove.
Import Text Attributes Spec.
Open Scope string_scope.
Context `{Externals}.

Lemma touches_only_refl (paths : list string) (w : World) : touches_only paths w w.
Proof. by repeat split. Qed.

Lemma touches_only_trans (paths : list string) (w1 w2 w3 : World) :
  touches_only paths w1 w2 -> touches_only paths w2 w3 -> touches_only paths w1 w3.
Proof.
  unfold touches_only. intros (Hf1&?&?&?&?) (Hf2&?&?&?&?).
  split; [|repeat split; congruence].
  intros path Hpath. by rewrite Hf2, Hf1.
Qed.

Lemma touches_only_mono (paths paths' : list string) (w w' : World) :
  (forall path, path ∈ paths -> path ∈ paths') ->
  touches_only paths w w' -> touches_only paths' w w'.
Proof.
  unfold touches_only. intros Hsub (Hf&?&?&?&?). split; [|done].
  intros path Hpath. apply Hf. intros Hin. by apply Hpath, Hsub.
Qed.

Lemma written_touches (path text : string) (w : World) :
  touches_only [path] w (written w path text).
Proof.
  split; [|done]. intros other Hother. cbn.
  apply lookup_insert_ne. intros <-. apply Hother. by left.
Qed.

Lemma removed_touches (path : string) (w : World) :
  touches_only [path] w (removed w path).
Proof.
  split; [|done]. intros other Hother. cbn.
  apply lookup_delete_ne. intros <-. apply Hother. by left.
Qed.

Lemma createDirectory_run (dir : string) (w : World) :
  exists w', createDirectory dir w = (Returns (), w')
             /\ touches_only [] w w' /\ files w' = files w.
Proof.
  unfold createDirectory. case_bool_decide; eexists; (split; [reflexivity|]); by repeat split.
Qed.

Lemma ExportsGenerator_commit_touches (g : ExportsGenerator) (preamble : string) (w : World) :
  touches_only [targetFile_ g] w (snd (ExportsGenerator_commit g preamble w))
  /\ forall e, fst (ExportsGenerator_commit g preamble w) = Throws e ->
               e = file_io_error (targetFile_ g).
Proof.
  rewrite ExportsGenerator_commit_run.
  repeat match goal with |- context [if ?b then _ else _] => destruct b end;
    cbn [fst snd]; (split; [try apply touches_only_refl; try apply written_touches|]);
    intros e; by intros [= <-].
Qed.

(** The [commit] of every kind of generator changes no file but its own
    target file, and throws nothing but an I/O error on that file. *)
Lemma commit_touches (g : Generator) (includes : list string) (w : World) :
  touches_only [targetFile g] w (snd (commit g includes w))
  /\ forall e, fst (commit g includes w) = Throws e ->
               e = file_io_error (targetFile g).
Proof.
  assert (forall base preamble w0,
             touches_only [targetFile_ base] w w0 ->
             touches_only [targetFile_ base] w
               (snd (ExportsGenerator_commit base preamble w0))) as Hthen.
  { intros base preamble w0 Hw0.
    apply touches_only_trans with w0; [exact Hw0|].
    apply ExportsGenerator_commit_touches. }
  assert (forall base dir preamble,
             touches_only [targetFile_ base] w
               (snd ((createDirectory dir ≫=
                        (fun _ => ExportsGenerator_commit base preamble)) w))
             /\ forall e,
                 fst ((createDirectory dir ≫=
                         (fun _ => ExportsGenerator_commit base preamble)) w) = Throws e ->
                 e = file_io_error (targetFile_ base)) as Hdir.
  { intros base dir preamble.
    destruct (createDirectory_run dir w) as (w0 & Hrun & Htouch & _).
    rewrite (bind_returns _ _ _ _ _ Hrun). split.
    - apply Hthen.
      apply touches_only_mono with []; [intros ? []%elem_of_nil | exact Htouch].
    - apply ExportsGenerator_commit_touches. }
  assert (forall base,
             touches_only [targetFile_ base] w (snd (ExportsGenerator_remove base w))
             /\ forall e, fst (ExportsGenerator_remove base w) = Throws e ->
                          e = file_io_error (targetFile_ base)) as Hremove.
  { intros base. unfold ExportsGenerator_remove. rewrite removeFile_run.
    destruct (files w !! targetFile_ base); cbn [fst snd];
      (split; [try apply removed_touches; try apply touches_only_refl | by intros e [=]]). }
  destruct g as [g | g | g | g]; unfold commit, targetFile; cbn [base_of].
  - apply ExportsGenerator_commit_touches.
  - unfold CppExportsIncludeGenerator_commit.
    destruct (hasCppInterface_ (inc_base g)); [apply Hdir | apply Hremove].
  - unfold CppPackageIncludeGenerator_commit.
    destruct (hasCppInterface_ (pkg_base g)); [apply Hdir | apply Hremove].
  - apply ExportsGenerator_commit_touches.
Qed.

Lemma ExportsGenerators_commit_run (generators : list Generator) (includes : list string) :
  forall (updated : list string) (w : World),
    let result := ExportsGenerators_commit generators includes updated w in
    touches_only (map targetFile generators) w (snd result)
    /\ (forall all, fst result = Returns all ->
                    exists new, all = (updated ++ new)%list
                                /\ new `sublist_of` map targetFile generators)
    /\ (forall e, fst result = Throws e ->
                  exists g, g ∈ generators /\ e = file_io_error (targetFile g)).
Proof.
  induction generators as [|g generators IH]; intros updated w;
    cbn [ExportsGenerators_commit map].
  - cbn. split; [apply touches_only_refl|]. split.
    + intros all [= <-]. exists []. by rewrite List.app_nil_r.
    + by intros e [=].
  - destruct (commit_touches g includes w) as [Htouch Hthrow].
    unfold mbind, IO_bind.
    destruct (commit g includes w) as [[changed | e] w1] eqn:Hcommit; cbn [fst snd] in *.
    + destruct (IH (if changed then (updated ++ [targetFile g])%list else updated) w1)
        as (Htouch' & Hall & Hthrow').
      split; [|split].
      * apply touches_only_trans with w1.
        -- apply touches_only_mono with [targetFile g]; [|exact Htouch].
           intros path ->%list_elem_of_singleton. by left.
        -- apply touches_only_mono with (map targetFile generators); [|exact Htouch'].
           intros path Hpath. by right.
      * intros all Hreturned. destruct (Hall all Hreturned) as (new & -> & Hsub).
        destruct changed.
        -- exists (targetFile g :: new). rewrite <- List.app_assoc. split; [reflexivity|].
           by apply sublist_skip.
        -- exists new. split; [reflexivity|]. by apply sublist_cons.
      * intros e Hthrown. destruct (Hthrow' e Hthrown) as (g' & Hin & ->).
        exists g'. split; [by right | reflexivity].
    + split; [|split].
      * apply touches_only_mono with [targetFile g]; [|exact Htouch].
        intros path ->%list_elem_of_singleton. by left.
      * by intros all [=].
      * intros e' [= <-]. exists g. split; [by left | by apply Hthrow].
Qed.

(** X9.  Committing a set of generators changes no file other than the
    generators' target files, whether it returns or throws; the paths
    that cannot be opened, the printed text and the warnings stay as
    they were.  When it returns, the updated files it reports are target
    files of the generators, in the order of the generators.  When it
    throws, the exception is an I/O error on the target file of one of
    the generators. *)
Theorem ExportsGenerators_commit_touches_targets_only
    (generators : list Generator) (includes : list string) (w : World) :
  let result := ExportsGenerators_commit generators includes [] w in
  touches_only (map targetFile generators) w (snd result)
  /\ (forall updated, fst result = Returns updated ->
                      updated `sublist_of` map targetFile generators)
  /\ (forall e, fst result = Throws e ->
                exists g, g ∈ generators /\ e = file_io_error (targetFile g)).
Proof.
  cbn zeta.
  destruct (ExportsGenerators_commit_run generators includes [] w) as (Htouch & Hall & Hthrow).
  split; [exact Htouch|]. split; [|exact Hthrow].
  intros updated Hreturned. by destruct (Hall updated Hreturned) as (new & -> & Hsub).
Qed.

Lemma ExportsGenerators_remove_run (generators : list Generator) :
  forall (removed_before : list string) (w : World),
    exists gone w',
      ExportsGenerators_remove generators removed_before w
      = (Returns (removed_before ++ gone)%list, w')
      /\ (forall path,
             files w' !! path
             = if bool_decide (path ∈ map targetFile generators)
               then None else files w !! path)
      /\ (forall path,
             path ∈ gone
             <-> path ∈ map targetFile generators /\ is_Some (files w !! path))
      /\ NoDup gone
      /\ gone `sublist_of` map targetFile generators
      /\ unreadable w' = unreadable w /\ unwritable w' = unwritable w.
Proof.
  induction generators as [|g generators IH]; intros removed_before w;
    cbn [ExportsGenerators_remove map].
  - exists [], w. rewrite List.app_nil_r. split; [reflexivity|].
    split; [intros path; by rewrite bool_decide_false by apply not_elem_of_nil|].
    split; [intros path; split; [by intros ?%elem_of_nil | by intros [?%elem_of_nil _]]|].
    split; [constructor|]. by split.
  - unfold remove at 1, ExportsGenerator_remove, mbind, IO_bind.
    fold (targetFile g). rewrite removeFile_run.
    destruct (files w !! targetFile g) as [content|] eqn:Hfile.
    + destruct (IH (removed_before ++ [targetFile g])%list (removed w (targetFile g)))
        as (gone & w' & Hrun & Hfiles & Hgone & Hnodup & Hsub & Hr & Hw).
      exists (targetFile g :: gone), w'. rewrite Hrun, <- List.app_assoc.
      split; [reflexivity|].
      assert (targetFile g ∉ gone) as Hfresh.
      { intros [_ Hsome]%Hgone. cbn in Hsome. rewrite lookup_delete_eq in Hsome.
        by destruct Hsome. }
      split; [|split; [|split; [|split]]].
      * intros path. rewrite Hfiles. cbn [removed files].
        destruct (decide (path = targetFile g)) as [-> | Hne].
        -- rewrite lookup_delete_eq.
           rewrite (bool_decide_true (_ ∈ _ :: _)) by by left.
           by case_bool_decide.
        -- rewrite lookup_delete_ne by done.
           case_bool_decide as Hin.
           ++ rewrite bool_decide_true; [done | by right].
           ++ rewrite bool_decide_false; [done|].
              intros [? | ?]%elem_of_cons; done.
      * intros path. rewrite elem_of_cons, Hgone, elem_of_cons. cbn [removed files].
        destruct (decide (path = targetFile g)) as [-> | Hne].
        -- rewrite Hfile. split; [intros _; split; [by left | eauto] | intros _; by left].
        -- rewrite lookup_delete_ne by done. tauto.
      * by constructor.
      * by apply sublist_skip.
      * exact (conj Hr Hw).
    + destruct (IH removed_before w)
        as (gone & w' & Hrun & Hfiles & Hgone & Hnodup & Hsub & Hr & Hw).
      exists gone, w'. split; [exact Hrun|].
      split; [|split; [|split; [|split]]].
      * intros path. rewrite Hfiles.
        destruct (decide (path = targetFile g)) as [-> | Hne].
        -- rewrite (bool_decide_true (_ ∈ _ :: _)) by by left.
           by case_bool_decide.
        -- case_bool_decide as Hin.
           ++ rewrite bool_decide_true; [done | by right].
           ++ rewrite bool_decide_false; [done|].
              intros [? | ?]%elem_of_cons; done.
      * intros path. rewrite Hgone, elem_of_cons. split; [tauto|].
        intros [[-> | Hin] Hsome]; [|tauto].
        rewrite Hfile in Hsome. by destruct Hsome.
      * exact Hnodup.
      * by apply sublist_cons.
      * exact (conj Hr Hw).
Qed.

(** X10.  Removing the artifacts of a set of generators never throws.
    Afterwards none of the target files exists and every other file is
    as it was.  The files it reports as removed are exactly the target
    files that existed, each once, in the order of the generators. *)
Theorem ExportsGenerators_remove_clears_targets (generators : list Generator) (w : World) :
  exists gone w',
    ExportsGenerators_remove generators [] w = (Returns gone, w')
    /\ (forall g, g ∈ generators -> files w' !! targetFile g = None)
    /\ (forall path, path ∉ map targetFile generators ->
                     files w' !! path = files w !! path)
    /\ (forall path,
           path ∈ gone
           <-> path ∈ map targetFile generators /\ is_Some (files w !! path))
    /\ NoDup gone
    /\ gone `sublist_of` map targetFile generators.
Proof.
  destruct (ExportsGenerators_remove_run generators [] w)
    as (gone & w' & Hrun & Hfiles & Hgone & Hnodup & Hsub & _).
  exists gone, w'. split; [exact Hrun|].
  split; [|split; [|split; [|split]]]; try done.
  - intros g Hg. rewrite Hfiles, bool_decide_true; [done|].
    apply list_elem_of_fmap. by exists g.
  - intros path Hpath. by rewrite Hfiles, bool_decide_false.
Qed.
End CommitAndRemove.

(* ===================================================================== *)
(** * The container patterns: properties                                  *)
(* ===================================================================== *)

Section ContainerPatterns.
Import Text Attributes Spec.
Open Scope string_scope.
Context `{Externals}.

Lemma substring_0_length (s : string) : String.substring 0 (String.length s) s = s.
Proof. induction s as [|c s IH]; [reflexivity|]. cbn. by rewrite IH. Qed.

Lemma length_app (a b : string) :
  String.length (a +:+ b) = (String.length a + String.length b)%nat.
Proof. induction a as [|c a IH]; [reflexivity|]. rewrite app_cons. cbn. by rewrite IH. Qed.

Lemma substring_app_l (a x : string) : String.substring 0 (String.length a) (a +:+ x) = a.
Proof.
  induction a as [|c a IH]; [by destruct x|]. rewrite app_cons. cbn. by rewrite IH.
Qed.

Lemma substring_skip (a x : string) (m : nat) :
  String.substring (String.length a) m (a +:+ x) = String.substring 0 m x.
Proof. induction a as [|c a IH]; [reflexivity|]. rewrite app_cons. cbn. exact IH. Qed.

Lemma length_0 (s : string) : String.length s = 0%nat -> s = EmptyString.
Proof. by destruct s. Qed.

(** [find] returns the place of an occurrence of the pattern. *)
Lemma find_decompose (pattern : string) (s : string) :
  forall n, find s pattern = Some n ->
            exists before after,
              s = before +:+ pattern +:+ after /\ String.length before = n.
Proof.
  unfold find. induction s as [|c s IH]; intros n; cbn [String.index].
  - destruct pattern; [|done]. intros [= <-]. by exists EmptyString, EmptyString.
  - destruct (String.prefix pattern (String c s)) eqn:Hprefix.
    + intros [= <-]. apply prefix_app in Hprefix as [after Hafter].
      by exists EmptyString, after.
    + destruct (String.index 0 pattern s) as [k|]; [|done].
      intros [= <-]. destruct (IH k eq_refl) as (before & after & -> & <-).
      by exists (String c before), after.
Qed.

(** The text around the pattern, as the translators cut it out. *)
Lemma substr_around (before pattern after : string) :
  substr (before +:+ pattern +:+ after) 0 (String.length before) = before
  /\ substr_from (before +:+ pattern +:+ after)
                 (String.length before + String.length pattern) = after
  /\ Nat.leb (String.length (before +:+ pattern +:+ after))
             (String.length before + String.length pattern) = empty after.
Proof.
  unfold substr, substr_from. split; [apply substring_app_l|].
  rewrite <- app_assoc, <- length_app. split.
  - rewrite substring_skip, length_app.
    replace (String.length (before +:+ pattern) + String.length after
             - String.length (before +:+ pattern))%nat with (String.length after) by lia.
    apply substring_0_length.
  - rewrite length_app. destruct after; cbn.
    + apply Nat.leb_le. lia.
    + apply Nat.leb_gt. lia.
Qed.

(** What the create translator returns once the pattern is found. *)
Lemma cppCreateArgToRArg_found (before args : string) :
  find (before +:+ "::create" +:+ args) "::create" = Some (String.length before) ->
  cppCreateArgToRArg (before +:+ "::create" +:+ args) =
    if empty args then EmptyString
    else
      let type :=
        match find before "Rcpp::" with
        | Some O =>
            if Nat.ltb 6 (String.length before) then substr_from before 6 else before
        | _ => before
        end in
      if String.eqb type "CharacterVector" then "character" +:+ args
      else if String.eqb type "IntegerVector" then "integer" +:+ args
      else if String.eqb type "NumericVector" then "numeric" +:+ args
      else EmptyString.
Proof.
  intros Hfind. unfold cppCreateArgToRArg. rewrite Hfind.
  destruct (substr_around before "::create" args) as (-> & -> & ->).
  reflexivity.
Qed.

(** A text the create translator accepts, and what it returns for it. *)
Lemma cppCreateArgToRArg_nonempty (cppArg : string) :
  cppCreateArgToRArg cppArg <> EmptyString ->
  exists scope type constructor args,
    In scope [EmptyString; "Rcpp::"]
    /\ In (type, constructor) container_constructors
    /\ args <> EmptyString
    /\ cppArg = scope +:+ type +:+ "::create" +:+ args
    /\ cppCreateArgToRArg cppArg = constructor +:+ args.
Proof.
  intros Hresult.
  destruct (find cppArg "::create") as [loc|] eqn:Hfind;
    [|unfold cppCreateArgToRArg in Hresult; by rewrite Hfind in Hresult].
  destruct (find_decompose _ _ _ Hfind) as (before & args & -> & <-).
  rewrite (cppCreateArgToRArg_found _ _ Hfind) in Hresult |- *.
  destruct (empty args) eqn:Hargs; [done|]. apply empty_false in Hargs.
  cbn zeta in Hresult |- *.
  assert (exists scope type,
             In scope [EmptyString; "Rcpp::"] /\ before = scope +:+ type
             /\ match find before "Rcpp::" with
                | Some O =>
                    if Nat.ltb 6 (String.length before)
                    then substr_from before 6 else before
                | _ => before
                end = type) as (scope & type & Hscope & -> & Htype).
  { destruct (find before "Rcpp::") as [[|k]|] eqn:Hrcpp;
      try (exists EmptyString, before; split; [by left | by split]).
    destruct (Nat.ltb 6 (String.length before));
      [|exists EmptyString, before; split; [by left | by split]].
    destruct (find_decompose _ _ _ Hrcpp) as (nothing & type & -> & Hlength).
    apply length_0 in Hlength as ->.
    exists "Rcpp::", type. split; [right; by left|]. split; [reflexivity|].
    apply (substr_around EmptyString "Rcpp::" type). }
  rewrite Htype in Hresult |- *.
  exists scope, type.
  assert (forall constructor,
             In (type, constructor) container_constructors ->
             exists constructor0 args0,
               In scope [EmptyString; "Rcpp::"]
               /\ In (type, constructor0) container_constructors
               /\ args0 <> EmptyString
               /\ (scope +:+ type) +:+ "::create" +:+ args
                  = scope +:+ type +:+ "::create" +:+ args0
               /\ constructor +:+ args = constructor0 +:+ args0) as Hfound.
  { intros constructor Hin. exists constructor, args.
    split; [exact Hscope|]. split; [exact Hin|]. split; [exact Hargs|].
    split; [by rewrite app_assoc | reflexivity]. }
  destruct (String.eqb_spec type "CharacterVector") as [-> |];
    [apply (Hfound "character"); cbn; tauto|].
  destruct (String.eqb_spec type "IntegerVector") as [-> |];
    [apply (Hfound "integer"); cbn; tauto|].
  destruct (String.eqb_spec type "NumericVector") as [-> |];
    [apply (Hfound "numeric"); cbn; tauto|].
  done.
Qed.

(** X11.  The create translator accepts exactly the texts made of one of
    the three container types, with or without the Rcpp:: scope, then
    ::create, then a non-empty argument text; it returns the matching R
    constructor followed by that argument text verbatim.  Every other
    text yields the empty string. *)
Theorem cppCreateArgToRArg_accepts :
  (forall scope type constructor args,
      In scope [EmptyString; "Rcpp::"] ->
      In (type, constructor) container_constructors ->
      args <> EmptyString ->
      cppCreateArgToRArg (scope +:+ type +:+ "::create" +:+ args) = constructor +:+ args)
  /\ (forall cppArg,
         cppCreateArgToRArg cppArg <> EmptyString ->
         exists scope type constructor args,
           In scope [EmptyString; "Rcpp::"]
           /\ In (type, constructor) container_constructors
           /\ args <> EmptyString
           /\ cppArg = scope +:+ type +:+ "::create" +:+ args
           /\ cppCreateArgToRArg cppArg = constructor +:+ args).
Proof.
  split; [|exact cppCreateArgToRArg_nonempty].
  intros scope type constructor args Hscope Htype Hargs.
  destruct args as [|c args]; [done|].
  cbn [In container_constructors] in Hscope, Htype.
  destruct Hscope as [<- | [<- | []]];
    destruct Htype as [[= <- <-] | [[= <- <-] | [[= <- <-] | []]]];
    unfold cppCreateArgToRArg, find, substr, substr_from;
    vm_compute; repeat f_equal; exact (substring_0_length args).
Qed.

(** The matrix translator on a text in which Matrix occurs. *)
Lemma cppMatrixArgToRArg_found (cppArg : string) (loc : nat) :
  find cppArg "Matrix" = Some loc ->
  exists before args,
    cppArg = before +:+ "Matrix" +:+ args
    /\ String.length before = loc
    /\ cppMatrixArgToRArg cppArg
       = if empty args then EmptyString else "matrix" +:+ args.
Proof.
  intros Hfind. unfold cppMatrixArgToRArg. rewrite Hfind.
  destruct (find_decompose _ _ _ Hfind) as (before & args & -> & <-).
  exists before, args. split; [reflexivity|]. split; [reflexivity|].
  destruct (substr_around before "Matrix" args) as (_ & -> & ->).
  reflexivity.
Qed.

(** X12.  The matrix translator returns the empty string unless Matrix
    occurs in the text with something after its first occurrence; it
    then returns matrix followed by everything after that occurrence,
    verbatim, whatever stands before it. *)
Theorem cppMatrixArgToRArg_cases (cppArg : string) :
  match find cppArg "Matrix" with
  | None => cppMatrixArgToRArg cppArg = EmptyString
  | Some loc =>
      exists before args,
        cppArg = before +:+ "Matrix" +:+ args
        /\ String.length before = loc
        /\ cppMatrixArgToRArg cppArg
           = if empty args then EmptyString else "matrix" +:+ args
  end.
Proof.
  destruct (find cppArg "Matrix") as [loc|] eqn:Hfind;
    [exact (cppMatrixArgToRArg_found cppArg loc Hfind)|].
  unfold cppMatrixArgToRArg. by rewrite Hfind.
Qed.

(** X13.  Whatever the default value, its translation is the empty
    string, the text itself, the text with L appended, one of the four
    tokens TRUE, FALSE, NULL and NA, or the R constructor of a container
    pattern followed by the non-empty text that follows the pattern in
    the default value.  The translator adds no other text of its own. *)
Theorem cppArgToRArg_forms (type cppArg : string) :
  let rArg := cppArgToRArg type cppArg in
  rArg = EmptyString
  \/ rArg = cppArg
  \/ rArg = cppArg +:+ "L"
  \/ In rArg literal_tokens
  \/ exists before pattern constructor args,
       In (pattern, constructor)
          [ ("::create", "character"); ("::create", "integer");
            ("::create", "numeric"); ("Matrix", "matrix") ]
       /\ args <> EmptyString
       /\ cppArg = before +:+ pattern +:+ args
       /\ rArg = constructor +:+ args.
Proof.
  cbn zeta. rewrite cppArgToRArg_first_match.
  destruct (isQuoted cppArg); [right; by left|].
  destruct (empty (cppLiteralArgToRArg cppArg)) eqn:Hliteral; cbn [negb].
  2: { right. right. right. left. revert Hliteral. unfold cppLiteralArgToRArg.
       repeat match goal with
              | |- context [String.eqb ?a ?b] => destruct (String.eqb a b); cbn [orb]
              end; intros Hempty; first [discriminate Hempty | cbn; auto 10]. }
  destruct (empty (cppCreateArgToRArg cppArg)) eqn:Hcreate; cbn [negb].
  2: { apply empty_false in Hcreate.
       destruct (cppCreateArgToRArg_nonempty cppArg Hcreate)
         as (scope & container & constructor & args & _ & Hin & Hargs & Hsplit & Hresult).
       right. right. right. right.
       exists (scope +:+ container), "::create", constructor, args.
       split; [|split; [exact Hargs|split; [by rewrite app_assoc | exact Hresult]]].
       cbn [In container_constructors] in Hin |- *.
       destruct Hin as [[= <- <-] | [[= <- <-] | [[= <- <-] | []]]]; tauto. }
  destruct (empty (cppMatrixArgToRArg cppArg)) eqn:Hmatrix; cbn [negb].
  2: { destruct (find cppArg "Matrix") as [loc|] eqn:Hfind;
         [|unfold cppMatrixArgToRArg in Hmatrix; rewrite Hfind in Hmatrix;
           discriminate].
       destruct (cppMatrixArgToRArg_found cppArg loc Hfind)
         as (before & args & Hsplit & _ & Hresult).
       rewrite Hresult in Hmatrix |- *.
       destruct (empty args) eqn:Hargs; [discriminate|]. apply empty_false in Hargs.
       right. right. right. right. exists before, "Matrix", "matrix", args.
       split; [cbn; tauto|]. by split. }
  unfold cppNumericArgToRArg.
  destruct (extractDouble cppArg) as [unread|]; [|by left].
  repeat match goal with |- context [if ?b then _ else _] => destruct b end;
    tauto.
Qed.
End ContainerPatterns.

(* ===================================================================== *)
(** * Entry points: properties                                            *)
(* ===================================================================== *)

Section EntryPoints.
Import Text Attributes Spec.
Open Scope string_scope.
Context `{Externals}.

Lemma occurs_in_start (piece text rest : string) :
  text = piece +:+ rest -> occurs_in piece text.
Proof. intros ->. exists EmptyString, rest. reflexivity. Qed.

Lemma occurs_in_trans (a b c : string) :
  occurs_in a b -> occurs_in b c -> occurs_in a c.
Proof.
  intros (before & after & ->) (before' & after' & ->).
  exists (before' +:+ before), (after +:+ after'). by rewrite !app_assoc.
Qed.

(** Walk down a concatenation to the place where the piece starts. *)
Ltac locate_start :=
  first [ solve [eapply occurs_in_start; rewrite !app_assoc; reflexivity]
        | apply occurs_in_app_r; locate_start ].

(** Walk down a concatenation to the part that holds the piece. *)
Ltac locate_piece here :=
  first [ solve [here]
        | apply occurs_in_app_l; solve [here]
        | apply occurs_in_app_r; locate_piece here ].

(** The call adapter of an exported function carries the package name
    and the name of the function. *)
Lemma generateCpp_defines (attrs : SourceFileAttributes) (attr : Attribute)
    (includePrototype : bool) (package : string) :
  package <> EmptyString ->
  In attr (attributes attrs) ->
  isExportedFunction attr = true ->
  occurs_in (nl +:+ "RcppExport SEXP " +:+ package +:+ "_"
               +:+ fn_name (function attr) +:+ "(")
            (generateCpp attrs includePrototype package).
Proof.
  intros Hpackage%empty_false Hin Hexported. unfold generateCpp.
  eapply occurs_in_trans;
    [|apply (for_each_occurs
               (fun attribute =>
                  if negb (isExportedFunction attribute) then EmptyString
                  else generateCpp_function (function attribute) includePrototype package)
               _ attr Hin 0%nat)].
  cbn beta. rewrite Hexported. cbn [negb].
  unfold generateCpp_function. rewrite Hpackage. cbn [negb].
  destruct includePrototype; rewrite !app_assoc; locate_start.
Qed.

(** X14.  For a package with a non-empty name and a function of a source
    file that requests the C++ interface, exported and not hidden under
    its exported name: the call adapter generator defines the adapter
    named package_function and, at the end, registers it under the key
    package_exportedName; the cross-extension header generator looks the
    function up under that same key. *)
Theorem ccallable_key_join
    (g : CppExportsGenerator) (gi : CppExportsIncludeGenerator)
    (attrs : SourceFileAttributes) (attr : Attribute) (verbose : bool) (w : World) :
  package_ (inc_base gi) = package_ (cpp_base g) ->
  package_ (cpp_base g) <> EmptyString ->
  hasInterface attrs kInterfaceCpp = true ->
  In attr (attributes attrs) ->
  isExportedFunction attr = true ->
  Function_isHidden (renamedTo (function attr) (exportedName attr)) = false ->
  let package := package_ (cpp_base g) in
  let key := package +:+ "_" +:+ exportedName attr in
  let adapter := package +:+ "_" +:+ fn_name (function attr) in
  (exists g' w',
      writeFunctions (Cpp g) attrs verbose w = (Returns (Cpp g'), w')
      /\ occurs_in (nl +:+ "RcppExport SEXP " +:+ adapter +:+ "(")
                   (codeStream_ (cpp_base g'))
      /\ occurs_in ("    R_RegisterCCallable(" +:+ dq +:+ package +:+ dq +:+ ", "
                      +:+ dq +:+ key +:+ dq +:+ ", "
                      +:+ "(DL_FUNC)" +:+ adapter +:+ ");" +:+ nl)
                   (codeStream_ (cpp_base (CppExportsGenerator_writeEnd g'))))
  /\ (exists gi',
        writeFunctions (CppInclude gi) attrs verbose w = (Returns (CppInclude gi'), w)
        /\ occurs_in ("R_GetCCallable(" +:+ dq +:+ package +:+ dq +:+ ", "
                        +:+ dq +:+ key +:+ dq +:+ ")")
                     (codeStream_ (inc_base gi'))).
Proof.
  intros Hsame Hpackage Hcpp Hin Hexported Hhidden. cbn zeta. split.
  - destruct (writeFunctions_Cpp_run g attrs verbose w) as (w' & Hrun & _).
    rewrite Hcpp in Hrun. eexists _, w'. split; [exact Hrun|]. split.
    + cbn [cpp_base ostr codeStream_]. apply occurs_in_app_r. rewrite !app_assoc.
      apply (generateCpp_defines attrs attr true _ Hpackage Hin Hexported).
    + assert (In attr (track_cppExports (attributes attrs) (cppExports_ g))) as Htracked.
      { rewrite track_cppExports_filter. apply in_or_app. right.
        apply filter_In. split; [exact Hin|].
        unfold has_cpp_interface. by rewrite Hexported, Hhidden. }
      unfold CppExportsGenerator_writeEnd.
      cbn [cpp_base hasCppInterface_ ostr set_hasCppInterface codeStream_ cppExports_].
      apply occurs_in_app_r. unfold CppExportsGenerator_writeEnd_text.
      cbn [cpp_base cppExports_ ostr set_hasCppInterface package_].
      assert (occurs_in
                ("    R_RegisterCCallable(" +:+ dq +:+ package_ (cpp_base g) +:+ dq +:+ ", "
                   +:+ dq +:+ (package_ (cpp_base g) +:+ "_" +:+ exportedName attr)
                   +:+ dq +:+ ", " +:+ "(DL_FUNC)"
                   +:+ (package_ (cpp_base g) +:+ "_" +:+ fn_name (function attr))
                   +:+ ");" +:+ nl)
                (for_each
                   (fun _ attr =>
                      registerCCallable (package_ (cpp_base g)) 4
                        (exportedName attr) (fn_name (function attr)) +:+ nl)
                   0 (track_cppExports (attributes attrs) (cppExports_ g)))) as Hline.
      { eapply occurs_in_trans;
          [|apply (for_each_occurs
                     (fun attr => registerCCallable (package_ (cpp_base g)) 4
                                    (exportedName attr) (fn_name (function attr)) +:+ nl)
                     _ attr Htracked 0%nat)].
        apply occurs_in_start with EmptyString.
        unfold registerCCallable. cbn [spaces]. rewrite !app_assoc, app_nil_r.
        reflexivity. }
      locate_piece ltac:(exact Hline).
  - unfold writeFunctions, ExportsGenerator_writeFunctions,
      CppExportsIncludeGenerator_doWriteFunctions.
    rewrite Hcpp. cbn [negb]. eexists. split.
    { unfold mbind, IO_bind, mret, IO_ret. reflexivity. }
    cbn [inc_base ostr codeStream_ set_hasCppInterface package_].
    apply occurs_in_app_r. rewrite Hsame.
    eapply occurs_in_trans;
      [|apply (for_each_occurs
                 (CppExportsIncludeGenerator_attribute_text (package_ (cpp_base g)))
                 _ attr Hin 0%nat)].
    unfold CppExportsIncludeGenerator_attribute_text. rewrite Hexported, Hhidden.
    unfold CppExportsIncludeGenerator_function_text, getCCallable, renamedTo.
    cbn [fn_name fn_arguments fn_type]. rewrite !app_assoc. locate_start.
Qed.

End EntryPoints.

(* ===================================================================== *)
(** * Construction: properties                                            *)
(* ===================================================================== *)

Section Construction.
Import Text Attributes Spec.
Open Scope string_scope.
Context `{Externals}.

Lemma app_inv_head (a b c : string) : a +:+ b = a +:+ c -> b = c.
Proof.
  induction a as [|x a IH]; [done|]. rewrite !app_cons. intros [= E]. auto.
Qed.

(** What the base constructor returns when it returns. *)
Lemma ExportsGenerator_new_returns (targetFile package commentPrefix : string)
    (w w' : World) (g : ExportsGenerator) :
  ExportsGenerator_new targetFile package commentPrefix w = (Returns g, w') ->
  w' = w
  /\ targetFile_ g = targetFile /\ package_ g = package
  /\ commentPrefix_ g = commentPrefix
  /\ codeStream_ g = EmptyString /\ hasCppInterface_ g = false
  /\ existingCode_ g = default EmptyString (files w !! targetFile).
Proof.
  rewrite ExportsGenerator_new_run. cbn zeta.
  destruct (files w !! targetFile) as [content|].
  - case_bool_decide; [discriminate|].
    destruct (String.prefix _ _); [|discriminate].
    intros [= <- <-]. by repeat split.
  - intros [= <- <-]. by repeat split.
Qed.

(** The four artifacts of a package are four different files. *)
Lemma target_files_differ (packageDir package fileSep : string) :
  NoDup [ packageDir +:+ fileSep +:+ "src" +:+ fileSep +:+ "RcppExports.cpp";
          packageDir +:+ fileSep +:+ "inst" +:+ fileSep +:+ "include"
            +:+ fileSep +:+ package +:+ kRcppExportsSuffix;
          packageDir +:+ fileSep +:+ "inst" +:+ fileSep +:+ "include"
            +:+ fileSep +:+ package +:+ ".h";
          packageDir +:+ fileSep +:+ "R" +:+ fileSep +:+ "RcppExports.R" ].
Proof.
  assert (forall a b : string, a <> b ->
            packageDir +:+ fileSep +:+ a <> packageDir +:+ fileSep +:+ b) as Hdir.
  { intros a b Hab E. by apply app_inv_head, app_inv_head in E. }
  assert (forall a b : string, a <> b ->
            "inst" +:+ fileSep +:+ "include" +:+ fileSep +:+ package +:+ a
            <> "inst" +:+ fileSep +:+ "include" +:+ fileSep +:+ package +:+ b) as Hinclude.
  { intros a b Hab E.
    by apply app_inv_head, app_inv_head, app_inv_head, app_inv_head, app_inv_head in E. }
  repeat (apply NoDup_cons; split;
          [rewrite ?elem_of_cons, elem_of_nil; intros Hin;
           repeat (destruct Hin as [Hin | Hin]); try done;
           revert Hin;
           first [ apply Hdir; apply Hinclude; discriminate
                 | apply Hdir; intros Hin; cbv in Hin; discriminate Hin ] |]).
  apply NoDup_nil_2.
Qed.

(** X16.  The four generators of a package, whenever their constructors
    return: each leaves the world as it is and starts with an empty code
    buffer and no C++ interface; the call adapter generator has no
    tracked export; the two header generators share the include
    directory; and the four target files are pairwise different. *)
Theorem package_generators_start
    (packageDir package fileSep : string) (w w1 w2 w3 w4 : World)
    (cpp : CppExportsGenerator) (inc : CppExportsIncludeGenerator)
    (pkg : CppPackageIncludeGenerator) (r : RExportsGenerator) :
  CppExportsGenerator_new packageDir package fileSep w = (Returns cpp, w1) ->
  CppExportsIncludeGenerator_new packageDir package fileSep w1 = (Returns inc, w2) ->
  CppPackageIncludeGenerator_new packageDir package fileSep w2 = (Returns pkg, w3) ->
  RExportsGenerator_new packageDir package fileSep w3 = (Returns r, w4) ->
  let generators := [Cpp cpp; CppInclude inc; CppPackage pkg; R r] in
  w4 = w
  /\ NoDup (map targetFile generators)
  /\ Forall (fun g => codeStream_ (base_of g) = EmptyString
                      /\ hasCppInterface g = false
                      /\ package_ (base_of g) = package
                      /\ existingCode_ (base_of g)
                         = default EmptyString (files w !! targetFile g))
            generators
  /\ cppExports_ cpp = []
  /\ inc_includeDir_ inc = pkg_includeDir_ pkg.
Proof.
  unfold CppExportsGenerator_new, CppExportsIncludeGenerator_new,
    CppPackageIncludeGenerator_new, RExportsGenerator_new, mbind, IO_bind, mret, IO_ret.
  intros Hcpp Hinc Hpkg Hr.
  repeat match goal with
         | Hnew : match ExportsGenerator_new ?t ?p ?c ?w0 with _ => _ end = _ |- _ =>
             let base := fresh "base" in
             let w' := fresh "w'" in
             let E := fresh "E" in
             destruct (ExportsGenerator_new t p c w0) as [[base | ?] w'] eqn:E;
             [|discriminate Hnew];
             injection Hnew as <- <-;
             apply ExportsGenerator_new_returns in E;
             destruct E as (-> & ? & ? & ? & ? & ? & ?)
         end.
  cbn zeta. split; [reflexivity|].
  unfold hasCppInterface, targetFile. cbn [map base_of cpp_base inc_base pkg_base r_base
    cppExports_ inc_includeDir_ pkg_includeDir_].
  split.
  { repeat match goal with Ht : targetFile_ _ = _ |- _ => rewrite Ht; clear Ht end.
    apply target_files_differ. }
  split; [|by split].
  repeat (apply Forall_cons; split; [cbn [base_of cpp_base inc_base pkg_base r_base]; repeat split; congruence|]).
  apply Forall_nil_2.
Qed.
End Construction.

(* ===================================================================== *)
(** * The sample package, through the generators                          *)
(* ===================================================================== *)

Section PackageSample.
Import Text Attributes Spec Sample.
Open Scope string_scope.

(** The umbrella header of the sample package over a batch whose only
    file requests the C++ interface. *)
Lemma umbrella_header_code_witness :
  exists g,
    writeFunctions_all (writeBegin (CppPackage fresh_CppPackageIncludeGenerator))
                       [add_cpp] false empty_world
    = (Returns g, empty_world)
    /\ codeStream_ (base_of (writeEnd g))
       = "#ifndef __pkg_h__" +:+ nl
         +:+ "#define __pkg_h__" +:+ nl +:+ nl
         +:+ "#include " +:+ dq +:+ "pkg_RcppExports.h" +:+ dq +:+ nl +:+ nl
         +:+ "#endif // __pkg_h__" +:+ nl.
Proof.
  exact (@umbrella_header_code Sample.types Sample.externals
           fresh_CppPackageIncludeGenerator [add_cpp] false empty_world
           eq_refl eq_refl).
Defined.

(** The R wrapper file of the sample package, written once and
    generated again. *)
Lemma regeneration_writes_nothing_witness :
  let w' := snd (ExportsGenerator_commit pending EmptyString empty_world) in
  exists again,
    ExportsGenerator_new "/pkg/R/RcppExports.R" "pkg" "#" w' = (Returns again, w')
    /\ existingCode_ again = generatedCode pending EmptyString
    /\ ExportsGenerator_commit (ostr again (codeStream_ pending)) EmptyString w'
       = (Returns false, w').
Proof.
  apply (@regeneration_writes_nothing Sample.types Sample.externals
           pending EmptyString empty_world).
  - apply not_elem_of_empty.
  - vm_compute. reflexivity.
Defined.

(** The exported function [add] of the sample package: adapter,
    registration and lookup. *)
Lemma ccallable_key_join_witness :
  (exists g' w',
      writeFunctions (Cpp fresh_CppExportsGenerator) add_cpp false empty_world
      = (Returns (Cpp g'), w')
      /\ occurs_in (nl +:+ "RcppExport SEXP pkg_add(") (codeStream_ (cpp_base g'))
      /\ occurs_in ("    R_RegisterCCallable(" +:+ dq +:+ "pkg" +:+ dq +:+ ", "
                      +:+ dq +:+ "pkg_add" +:+ dq +:+ ", "
                      +:+ "(DL_FUNC)pkg_add);" +:+ nl)
                   (codeStream_ (cpp_base (CppExportsGenerator_writeEnd g'))))
  /\ (exists gi',
        writeFunctions (CppInclude fresh_CppExportsIncludeGenerator) add_cpp false
                       empty_world
        = (Returns (CppInclude gi'), empty_world)
        /\ occurs_in ("R_GetCCallable(" +:+ dq +:+ "pkg" +:+ dq +:+ ", "
                        +:+ dq +:+ "pkg_add" +:+ dq +:+ ")")
                     (codeStream_ (inc_base gi'))).
Proof.
  apply (@ccallable_key_join Sample.types Sample.externals
           fresh_CppExportsGenerator fresh_CppExportsIncludeGenerator
           add_cpp add_export false empty_world).
  - reflexivity.
  - discriminate.
  - reflexivity.
  - left. reflexivity.
  - reflexivity.
  - reflexivity.
Defined.


(** The four generators of the sample package, constructed in a world
    without files. *)
Lemma package_generators_start_witness :
  let generators :=
    [ Cpp fresh_CppExportsGenerator; CppInclude fresh_CppExportsIncludeGenerator;
      CppPackage fresh_CppPackageIncludeGenerator; R fresh_RExportsGenerator ] in
  empty_world = empty_world
  /\ NoDup (map targetFile generators)
  /\ Forall (fun g => codeStream_ (base_of g) = EmptyString
                      /\ hasCppInterface g = false
                      /\ package_ (base_of g) = "pkg"
                      /\ existingCode_ (base_of g)
                         = default EmptyString (files empty_world !! targetFile g))
            generators
  /\ cppExports_ fresh_CppExportsGenerator = []
  /\ inc_includeDir_ fresh_CppExportsIncludeGenerator
     = pkg_includeDir_ fresh_CppPackageIncludeGenerator.
Proof.
  apply (@package_generators_start Sample.types Sample.externals
           "/pkg" "pkg" "/" empty_world empty_world empty_world empty_world empty_world
           fresh_CppExportsGenerator fresh_CppExportsIncludeGenerator
           fresh_CppPackageIncludeGenerator fresh_RExportsGenerator);
    vm_compute; reflexivity.
Defined.
End PackageSample.
